(** * prouter: request dispatch over gorilla/mux

    A shallow embedding of [router.go] and [group.go]: mode switch, router
    construction and options, route registration on groups, middleware
    composition, request context construction, response normalisation and the
    static file handler, followed by the properties of the dispatch core.

    Go values are rendered as follows.
    - [int], [int64]: [Z]; strings: [string]; [map[string]string]: [gmap].
    - interfaces ([Response], [handlerFunc], [Middleware]): records of their
      methods; a nil interface value is [None].
    - [error]: the text of [Error()], [None] for nil.
    - slices: a header (array, len, cap) over a store of backing arrays, so
      that a copied header aliases the array it was copied from.
    - pointers to routers and groups: positions in the router tree and in the
      list of groups.
    - the response writer, standard output and the clock: one [World] value
      threaded through every call.
    - a panic: its own outcome, propagated by every caller without [recover]. *)

From Stdlib Require Import ZArith Ascii String List Lia DecimalString.
From stdpp Require Import base option list strings gmap.

Set Warnings "-register-all".

Local Open Scope Z_scope.
Local Open Scope nat_scope.

(** ** Libraries the package is written against *)

Module url.
Record URL := { Path : string; RawPath : string; RawQuery : string; Scheme : string }.
End url.

Module http.
Definition StatusOK : Z := 200.
Definition StatusNotFound : Z := 404.
Definition StatusMethodNotAllowed : Z := 405.
Definition StatusInternalServerError : Z := 500.
Definition MethodGet : string := "GET".
Definition MethodPost : string := "POST".
Definition MethodPut : string := "PUT".
Definition MethodPatch : string := "PATCH".
Definition MethodDelete : string := "DELETE".
Definition MethodOptions : string := "OPTIONS".
Definition MethodHead : string := "HEAD".
Definition MethodTrace : string := "TRACE".

(** The part of [http.Request] the package and the matcher read. [Vars] is
    the binding [mux] attaches to the request of a matched route. *)
Record Request := {
  Method : string;
  URL : url.URL;
  Host : string;
  TLS : bool;
  RemoteAddr : string;
  Vars : option (gmap string string)
}.

(** [http.FileSystem]: [Open] of a name, [None] when it fails. *)
Definition FileSystem := string -> option string.
End http.

(** Functions of the Go runtime and standard library that the package calls
    and whose text is not part of it. *)
Class GoLib := {
  IP : Type;
  SplitHostPort : string -> option (string * string);
  ParseIP : string -> option IP;
  IPString : IP -> string;
  TrimSpace : string -> string;
  (** capacity chosen by [append] when it reallocates: old capacity, needed length *)
  growslice : nat -> nat -> nat;
  (** [path.Join] of two elements *)
  Join : string -> string -> string;
  Dir : string -> http.FileSystem
}.

(** The template language of gorilla/mux: whether a host, a path prefix or a
    full path template accepts a string, and the variables it binds. *)
Class MuxTemplates := {
  hostMatch : string -> string -> option (gmap string string);
  prefixMatch : string -> string -> option (gmap string string);
  pathMatch : string -> string -> option (gmap string string);
  (** canonical form of a request path; other paths are redirected to it *)
  cleanPath : string -> string
}.

(** ** Strings *)

Fixpoint dropString (n : nat) (s : string) : string :=
  match n, s with
  | S n', String _ s' => dropString n' s'
  | _, _ => s
  end.

(** [strings.TrimPrefix] *)
Definition TrimPrefix (s prefix : string) : string :=
  if String.prefix prefix s then dropString (String.length prefix) s else s.

(** [strings.TrimRight s "/"] *)
Fixpoint TrimRightSlash (s : string) : string :=
  match s with
  | EmptyString => EmptyString
  | String c s' =>
      match TrimRightSlash s' with
      | EmptyString => if Ascii.eqb c "/"%char then EmptyString else String c EmptyString
      | t => String c t
      end
  end.

(** [strings.ToUpper] / [strings.ToLower] on the ASCII letters *)
Definition upperAscii (c : Ascii.ascii) : Ascii.ascii :=
  let n := Ascii.nat_of_ascii c in
  if (97 <=? n) && (n <=? 122) then Ascii.ascii_of_nat (n - 32) else c.

Definition lowerAscii (c : Ascii.ascii) : Ascii.ascii :=
  let n := Ascii.nat_of_ascii c in
  if (65 <=? n) && (n <=? 90) then Ascii.ascii_of_nat (n + 32) else c.

Fixpoint mapString (f : Ascii.ascii -> Ascii.ascii) (s : string) : string :=
  match s with
  | EmptyString => EmptyString
  | String c s' => String (f c) (mapString f s')
  end.

Definition ToUpper : string -> string := mapString upperAscii.
Definition ToLower : string -> string := mapString lowerAscii.

(** [strconv.FormatInt value 10] *)
Definition FormatInt (value : Z) : string := NilZero.string_of_int (Z.to_int value).

(** ** Responses and the wire *)

Inductive any := anyNil | anyString (s : string) | anyInt (n : Z).

(** A value behind the [Response] interface, given by what [GetCode],
    [GetMessage] and [GetData] return. The same shape is the response
    template that is serialised. *)
Record Ret := { Code : Z; Message : string; Data : any }.

Definition Response := option Ret.
Definition ResponseTmpl := Ret.
Definition error := option string.

Definition NewResponseTmpl : ResponseTmpl := {| Code := 0; Message := EmptyString; Data := anyNil |}.
Definition SetCode (code : Z) (t : ResponseTmpl) : ResponseTmpl :=
  {| Code := code; Message := Message t; Data := Data t |}.
Definition SetMessage (msg : string) (t : ResponseTmpl) : ResponseTmpl :=
  {| Code := Code t; Message := msg; Data := Data t |}.
Definition SetData (data : any) (t : ResponseTmpl) : ResponseTmpl :=
  {| Code := Code t; Message := Message t; Data := data |}.

(** Modelled from the spec: [ErrorResponse] ([response.go] is not among the
    sources). The result carries the given code and message and no data. *)
Definition ErrorResponse (code : Z) (message : string) : Ret :=
  {| Code := code; Message := message; Data := anyNil |}.

(** What reaches the client: an envelope serialised by [WriteJSON], or bytes
    written by someone else on the response writer, each with the status it
    was written under. *)
Inductive WireEvent :=
| WJSON (status : Z) (body : Ret)
| WRaw (status : Z) (body : string)
| WRedirect (status : Z) (location : string).

Record World := { wire : list WireEvent; stdout : list string; clock : Z }.

Definition send (e : WireEvent) (w : World) : World :=
  {| wire := wire w ++ [e]; stdout := stdout w; clock := clock w |}.

Definition println (line : string) (w : World) : World :=
  {| wire := wire w; stdout := stdout w ++ [line]; clock := clock w |}.

(** Modelled from the spec: [WriteJSON] ([response.go] is not among the
    sources). The envelope goes to the wire as one JSON object, with the
    resolved code as transport status. *)
Definition WriteJSON (status : Z) (body : Ret) (w : World) : World :=
  send (WJSON status body) w.

Definition isEnvelope (e : WireEvent) : bool :=
  match e with WJSON _ _ => true | _ => false end.

Definition envelopes (w : World) : list WireEvent := List.filter isEnvelope (wire w).

(** ** Handlers and middlewares *)

Module ctx.
(** [Context]; the embedded logging context and the back pointer to the
    router carry no behaviour of their own and are left out. *)
Record Context := {
  Request : http.Request;
  Path : string;
  Method : string;
  ClientIp : string;
  startTime : Z;
  vars : gmap string string
}.
End ctx.

Inductive Outcome :=
| Returned (resp : Response) (err : error) (w : World)
| Panicked (v : string) (w : World).

(** [handlerFunc]: [Name()] and [Handle(ctx)] *)
Record handlerFunc := { Name : string; Handle : ctx.Context -> World -> Outcome }.

(** [Middleware]: [WrapHandler(h)] *)
Record Middleware := { WrapHandler : handlerFunc -> handlerFunc }.

(** [HandleFunc]: adapts a function of (context, writer, request, vars). *)
Definition HandleFunc (name : string)
    (f : ctx.Context -> http.Request -> gmap string string -> World -> Outcome) : handlerFunc :=
  {| Name := name; Handle := fun c w => f c (ctx.Request c) (ctx.vars c) w |}.

(** ** Slices of middlewares *)

Record slice := { arr : nat; len : nat; cap : nat }.

Abbreviation Heap := (list (list Middleware)).

(** [nil], and equally [make([]Middleware, 0)]: no backing storage *)
Definition emptySlice : slice := {| arr := 0; len := 0; cap := 0 |}.

Definition backing (h : Heap) (s : slice) : list Middleware := default [] (h !! arr s).

(** the elements a holder of the header [s] sees *)
Definition elems (h : Heap) (s : slice) : list Middleware := take (len s) (backing h s).

Section Append.
Context `{G : GoLib}.

(** [append(s, ms...)]: in place when the capacity suffices, otherwise into
    a fresh array holding a copy *)
Definition append (h : Heap) (s : slice) (ms : list Middleware) : Heap * slice :=
  let n := len s + length ms in
  if n <=? cap s
  then (<[arr s := take (len s) (backing h s) ++ ms ++ drop n (backing h s)]> h,
        {| arr := arr s; len := n; cap := cap s |})
  else (h ++ [take (len s) (backing h s) ++ ms],
        {| arr := length h; len := n; cap := n `max` growslice (cap s) n |}).
End Append.

(** [http.FileServer(fs).ServeHTTP]: the file under the request path with
    status 200, or the server's own plain-text 404. *)
Definition FileServer (fs : http.FileSystem) (r : http.Request) (w : World) : World :=
  match fs (url.Path (http.URL r)) with
  | Some bytes => send (WRaw http.StatusOK bytes) w
  | None => send (WRaw http.StatusNotFound "404 page not found") w
  end.

(** ** gorilla/mux

    The router as the package uses it: routes are kept in the order they were
    added and tried in that order, the first one that matches wins; a route
    made from a router inherits the router's matchers; a subrouter is the last
    matcher of the route it was made from. A request that matched some route
    on everything but the method is remembered as a method mismatch. Matchers
    keep the strings they were given; schemes are compared in lower case and
    methods in upper case. *)
Module mux.

Inductive Matcher :=
| Host (tpl : string)
| Schemes (schemes : list string)
| PathPrefix (tpl : string)
| Path (tpl : string)
| Methods (methods : list string)
| MatcherFunc (f : http.Request -> bool).

(** [mux.Route] before a handler or a subrouter is attached *)
Record Route := {
  matchers : list Matcher;
  pathTemplate : option string;
  err : bool
}.

Definition emptyRoute : Route := {| matchers := []; pathTemplate := None; err := false |}.

Definition addMatcher (m : Matcher) (r : Route) : Route :=
  {| matchers := matchers r ++ [m]; pathTemplate := pathTemplate r; err := err r |}.

Definition badStart (tpl : string) : bool :=
  match tpl with
  | EmptyString => false
  | String c _ => negb (Ascii.eqb c "/"%char)
  end.

Definition fullTemplate (r : Route) (tpl : string) : string :=
  match pathTemplate r with
  | Some t => TrimRightSlash t +:+ tpl
  | None => tpl
  end.

Definition addPathMatcher (mk : string -> Matcher) (tpl : string) (r : Route) : Route :=
  if badStart tpl
  then {| matchers := matchers r; pathTemplate := pathTemplate r; err := true |}
  else {| matchers := matchers r ++ [mk (fullTemplate r tpl)];
          pathTemplate := Some (fullTemplate r tpl);
          err := err r |}.

Definition withHost (tpl : string) : Route -> Route := addMatcher (Host tpl).
Definition withSchemes (schemes : list string) : Route -> Route :=
  addMatcher (Schemes schemes).
Definition withMethods (methods : list string) : Route -> Route :=
  addMatcher (Methods methods).
Definition withPath : string -> Route -> Route := addPathMatcher Path.
Definition withPathPrefix : string -> Route -> Route := addPathMatcher PathPrefix.

Section Tree.
Context {H : Type}.

Inductive Node :=
| Leaf (r : Route) (handler : H)
| Sub (conf : Route) (routes : list Node) (notFound methodNotAllowed : option H).

Record Router := {
  conf : Route;
  routes : list Node;
  NotFoundHandler : option H;
  MethodNotAllowedHandler : option H
}.

Definition NewRouter : Router :=
  {| conf := emptyRoute; routes := []; NotFoundHandler := None;
     MethodNotAllowedHandler := None |}.

(** [route.Subrouter()] *)
Definition Subrouter (r : Route) : Router :=
  {| conf := r; routes := []; NotFoundHandler := None; MethodNotAllowedHandler := None |}.

Definition asNode (R : Router) : Node :=
  Sub (conf R) (routes R) (NotFoundHandler R) (MethodNotAllowedHandler R).

Definition addNode (n : Node) (R : Router) : Router :=
  {| conf := conf R; routes := routes R ++ [n]; NotFoundHandler := NotFoundHandler R;
     MethodNotAllowedHandler := MethodNotAllowedHandler R |}.

Definition setRoutes (rs : list Node) (R : Router) : Router :=
  {| conf := conf R; routes := rs; NotFoundHandler := NotFoundHandler R;
     MethodNotAllowedHandler := MethodNotAllowedHandler R |}.

Definition setNotFoundHandler (h : H) (R : Router) : Router :=
  {| conf := conf R; routes := routes R; NotFoundHandler := Some h;
     MethodNotAllowedHandler := MethodNotAllowedHandler R |}.

Definition setMethodNotAllowedHandler (h : H) (R : Router) : Router :=
  {| conf := conf R; routes := routes R; NotFoundHandler := NotFoundHandler R;
     MethodNotAllowedHandler := Some h |}.

(** A [*mux.Router] is the position of the router below the root: the
    indices of the subrouter routes leading to it. *)
Definition Ref := list nat.

Fixpoint routesAt (p : Ref) (rs : list Node) : option (Route * list Node) :=
  match p with
  | [] => None
  | i :: p' =>
      match rs !! i with
      | Some (Sub c rs' _ _) =>
          match p' with [] => Some (c, rs') | _ => routesAt p' rs' end
      | _ => None
      end
  end.

(** the matchers a new route inherits, and the routes, of the router at [p] *)
Definition lookupRouter (p : Ref) (R : Router) : option (Route * list Node) :=
  match p with
  | [] => Some (conf R, routes R)
  | _ => routesAt p (routes R)
  end.

Fixpoint addAt (p : Ref) (n : Node) (rs : list Node) : list Node :=
  match p with
  | [] => rs ++ [n]
  | i :: p' =>
      match rs !! i with
      | Some (Sub c rs' nf mna) => <[i := Sub c (addAt p' n rs') nf mna]> rs
      | _ => rs
      end
  end.

(** append a route to the router at [p] *)
Definition addRoute (p : Ref) (n : Node) (R : Router) : Router :=
  setRoutes (addAt p n (routes R)) R.

End Tree.
Arguments Node : clear implicits.
Arguments Router : clear implicits.

Inductive Verdict (H : Type) :=
| Hit (h : H) (vars : option (gmap string string))
| MethodMismatch
| Miss.
Arguments Hit {H}.
Arguments MethodMismatch {H}.
Arguments Miss {H}.

(** one route against a request *)
Inductive RouteMatch :=
| Accept (vars : gmap string string)
| WrongMethod
| Reject.

Section Match.
Context `{T : MuxTemplates} {H : Type}.

Definition requestScheme (req : http.Request) : string :=
  match url.Scheme (http.URL req) with
  | EmptyString => if http.TLS req then "https" else "http"
  | s => s
  end.

Definition matchOne (m : Matcher) (req : http.Request) : option (gmap string string) :=
  match m with
  | Host tpl => hostMatch tpl (http.Host req)
  | Schemes ss =>
      if bool_decide (requestScheme req ∈ map ToLower ss) then Some ∅ else None
  | PathPrefix tpl => prefixMatch tpl (url.Path (http.URL req))
  | Path tpl => pathMatch tpl (url.Path (http.URL req))
  | Methods ms =>
      if bool_decide (http.Method req ∈ map ToUpper ms) then Some ∅ else None
  | MatcherFunc f => if f req then Some ∅ else None
  end.

Definition isMethods (m : Matcher) : bool :=
  match m with Methods _ => true | _ => false end.

(** the matchers of one route, in order: a failing method matcher is
    noted and the rest still tried, any other failure ends the attempt *)
Fixpoint matchAll (ms : list Matcher) (req : http.Request)
    (vars : gmap string string) (mismatch : bool) : RouteMatch :=
  match ms with
  | [] => if mismatch then WrongMethod else Accept vars
  | m :: ms' =>
      match matchOne m req with
      | Some v => matchAll ms' req (vars ∪ v) mismatch
      | None => if isMethods m then matchAll ms' req vars true else Reject
      end
  end.

Definition matchRoute (r : Route) (req : http.Request) : RouteMatch :=
  if err r then Reject else matchAll (matchers r) req ∅ false.

(** the routes of one router, tried in the order they were added *)
Fixpoint firstVerdict (vs : list (Verdict H)) : Verdict H :=
  match vs with
  | [] => Miss
  | Hit h vars :: _ => Hit h vars
  | MethodMismatch :: vs' =>
      match firstVerdict vs' with
      | Miss => MethodMismatch
      | v => v
      end
  | Miss :: vs' => firstVerdict vs'
  end.

(** what a router answers when its routes gave [v] *)
Definition fallback (notFound methodNotAllowed : option H) (v : Verdict H) : Verdict H :=
  match v with
  | Hit h vars => Hit h vars
  | MethodMismatch =>
      match methodNotAllowed with Some h => Hit h None | None => MethodMismatch end
  | Miss =>
      match notFound with Some h => Hit h None | None => Miss end
  end.

Fixpoint matchNode (req : http.Request) (n : Node H) : Verdict H :=
  match n with
  | Leaf r h =>
      match matchRoute r req with
      | Accept vars => Hit h (Some vars)
      | WrongMethod => MethodMismatch
      | Reject => Miss
      end
  | Sub c rs nf mna =>
      match matchRoute c req with
      | Accept _ => fallback nf mna (firstVerdict (map (matchNode req) rs))
      | WrongMethod =>
          match fallback nf mna (firstVerdict (map (matchNode req) rs)) with
          | Miss => Miss
          | _ => MethodMismatch
          end
      | Reject => Miss
      end
  end.

(** the search through the routes of [R] *)
Definition search (R : Router H) (req : http.Request) : Verdict H :=
  firstVerdict (map (matchNode req) (routes R)).

(** [Router.Match] *)
Definition Match (R : Router H) (req : http.Request) : Verdict H :=
  fallback (NotFoundHandler R) (MethodNotAllowedHandler R) (search R req).

Inductive Decision :=
| Serve (h : H) (req : http.Request)
| Redirect (location : string)
| NotAllowed
| NotFound.

Definition withVars (vars : option (gmap string string)) (req : http.Request) : http.Request :=
  {| http.Method := http.Method req; http.URL := http.URL req; http.Host := http.Host req;
     http.TLS := http.TLS req; http.RemoteAddr := http.RemoteAddr req; http.Vars := vars |}.

(** [Router.ServeHTTP] up to the call of the handler it settles on *)
Definition decide (R : Router H) (req : http.Request) : Decision :=
  let path := url.Path (http.URL req) in
  if negb (String.eqb (cleanPath path) path) then Redirect (cleanPath path)
  else match Match R req with
       | Hit h vars => Serve h (withVars vars req)
       | MethodMismatch => NotAllowed
       | Miss => NotFound
       end.

End Match.
End mux.

(** ** The package: types *)

Definition DebugMode : Z := 0.
Definition ReleaseMode : Z := 1.

Definition GetCode : Ret -> Z := Code.
Definition GetMessage : Ret -> string := Message.
Definition GetData : Ret -> any := Data.

Definition RouteOption := mux.Route -> mux.Route.

(** [Route]: [Method()], [Path()], [Handler()]; [Option] is present on an
    [OptRoute]. *)
Record Route := {
  Method : string;
  Path : string;
  Handler : handlerFunc;
  Option : option RouteOption
}.

(** Modelled from the spec: [NewRoute] ([route.go] is not among the sources).
    A route is its method, its pattern and its handler. *)
Definition NewRoute (method path : string) (handler : handlerFunc) : Route :=
  {| Method := method; Path := path; Handler := handler; Option := None |}.

Record iRoute := {
  route : Route;
  irouter : mux.Ref;
  middleware : slice;
  routeOption : option RouteOption
}.

(** The [http.Handler] values that are handed to the router. *)
Inductive httpHandler :=
| RouteHandler (wr : iRoute)
| NotFoundJSON
| UserHandler (f : http.Request -> World -> World).

Record RouterGroup := { router : mux.Ref; middlewares : slice; root : bool }.

Inductive LogLine :=
| LogRoute (method url handlerName : string)
| LogError (handlerName : string).

(** the package variable and the log *)
Record Process := { prouterMode : Z; plog : list LogLine }.

Definition startup : Process := {| prouterMode := DebugMode; plog := [] |}.

(** One [Prouter] with everything reachable from it: its embedded root
    group, the groups made from it, the router tree below [v.router], and the
    arrays behind all middleware slices. *)
Record State := {
  proc : Process;
  heap : Heap;
  tree : mux.Router httpHandler;
  self : RouterGroup;
  host : string;
  scheme : string;
  v_middlewares : slice;
  groups : list RouterGroup
}.

Definition set_proc (x : Process) (v : State) : State :=
  {| proc := x; heap := heap v; tree := tree v; self := self v; host := host v;
     scheme := scheme v; v_middlewares := v_middlewares v; groups := groups v |}.
Definition set_heap (x : Heap) (v : State) : State :=
  {| proc := proc v; heap := x; tree := tree v; self := self v; host := host v;
     scheme := scheme v; v_middlewares := v_middlewares v; groups := groups v |}.
Definition set_tree (x : mux.Router httpHandler) (v : State) : State :=
  {| proc := proc v; heap := heap v; tree := x; self := self v; host := host v;
     scheme := scheme v; v_middlewares := v_middlewares v; groups := groups v |}.
Definition set_self (x : RouterGroup) (v : State) : State :=
  {| proc := proc v; heap := heap v; tree := tree v; self := x; host := host v;
     scheme := scheme v; v_middlewares := v_middlewares v; groups := groups v |}.
Definition set_host (x : string) (v : State) : State :=
  {| proc := proc v; heap := heap v; tree := tree v; self := self v; host := x;
     scheme := scheme v; v_middlewares := v_middlewares v; groups := groups v |}.
Definition set_scheme (x : string) (v : State) : State :=
  {| proc := proc v; heap := heap v; tree := tree v; self := self v; host := host v;
     scheme := x; v_middlewares := v_middlewares v; groups := groups v |}.
Definition set_v_middlewares (x : slice) (v : State) : State :=
  {| proc := proc v; heap := heap v; tree := tree v; self := self v; host := host v;
     scheme := scheme v; v_middlewares := x; groups := groups v |}.
Definition set_groups (x : list RouterGroup) (v : State) : State :=
  {| proc := proc v; heap := heap v; tree := tree v; self := self v; host := host v;
     scheme := scheme v; v_middlewares := v_middlewares v; groups := x |}.

(** A [*RouterGroup]: the group embedded in the [Prouter], or one made by
    [Group]. *)
Inductive GroupRef := Self | Child (i : nat).

Definition getGroup (g : GroupRef) (v : State) : option RouterGroup :=
  match g with
  | Self => Some (self v)
  | Child i => groups v !! i
  end.

Definition setGroup (g : GroupRef) (rg : RouterGroup) (v : State) : State :=
  match g with
  | Self => set_self rg v
  | Child i => set_groups (<[i := rg]> (groups v)) v
  end.

Inductive result (A : Type) :=
| Ok (a : A)
| Panic (msg : string).
Arguments Ok {A}.
Arguments Panic {A}.

Inductive Served :=
| Done (w : World)
| Crashed (v : string) (w : World).

(** The two middlewares [NewProuter] installs; [middleware.go] is not among
    the sources. *)
Class Builtins := {
  NewLogMiddleware : Middleware;
  NewRecoveryMiddleware : Middleware
}.

(** ** The package: [router.go] *)

Definition SetMode (value : Z) (p : Process) : result Process :=
  if (value =? DebugMode)%Z then Ok {| prouterMode := DebugMode; plog := plog p |}
  else if (value =? ReleaseMode)%Z then Ok {| prouterMode := ReleaseMode; plog := plog p |}
  else Panic ("Prouter mode unknown: " +:+ FormatInt value
              +:+ " (available mode: debug release test)").

(** The options the package provides; each stands for the function on the
    [Prouter] it returns. *)
Inductive RouterOption :=
| WithHost (host : string)
| WithScheme (scheme : string)
| WithNotFoundHandler (handler : httpHandler)
| WithMethodNotAllowedHandler (handler : httpHandler).

Definition applyOption (v : State) (opt : RouterOption) : State :=
  match opt with
  | WithHost host => set_host host v
  | WithScheme scheme => set_scheme scheme v
  | WithNotFoundHandler handler => set_tree (mux.setNotFoundHandler handler (tree v)) v
  | WithMethodNotAllowedHandler handler =>
      set_tree (mux.setMethodNotAllowedHandler handler (tree v)) v
  end.

Definition isEmpty (s : string) : bool :=
  match s with EmptyString => true | _ => false end.

(** [v.router.Host(h).Subrouter()] and [v.router.Schemes(s).Subrouter()]: the
    new router starts from the matchers of the old one plus the new matcher,
    and [v.router] is the only pointer the package keeps. *)
Definition parseOptions (opts : list RouterOption) (v : State) : State :=
  let v := fold_left applyOption opts v in
  let v := if negb (isEmpty (host v))
           then set_tree (mux.Subrouter (mux.withHost (host v) (mux.conf (tree v)))) v
           else v in
  if negb (isEmpty (scheme v))
  then set_tree (mux.Subrouter (mux.withSchemes [host v] (mux.conf (tree v)))) v
  else v.

Definition newGroupWithRouter (router : mux.Ref) : RouterGroup :=
  {| router := router; middlewares := emptySlice; root := false |}.

Definition New (p : Process) (opts : list RouterOption) : State :=
  let rg := newGroupWithRouter [] in
  parseOptions opts
    {| proc := p; heap := []; tree := mux.NewRouter;
       self := {| router := router rg; middlewares := middlewares rg; root := true |};
       host := EmptyString; scheme := EmptyString;
       v_middlewares := emptySlice; groups := [] |}.

Definition packResponseTmpl (resp : Response) (err : error) : Z * ResponseTmpl :=
  let data := match resp with None => anyNil | Some r => GetData r end in
  let code := match resp with None => 200%Z | Some r => GetCode r end in
  let msg :=
    match err with
    | Some e =>
        match resp with
        | None => e
        | Some r => if isEmpty (GetMessage r) then e else GetMessage r
        end
    | None => EmptyString
    end in
  let code :=
    match err with
    | Some _ => if ((code =? 0) || (code =? 200))%Z then http.StatusInternalServerError else code
    | None => code
    end in
  let ret := SetData data (SetMessage msg (SetCode code NewResponseTmpl)) in
  (code, ret).

(** [for _, m := range slices.Backward(ms) { h = m.WrapHandler(h) }] *)
Definition wrapBackward (ms : list Middleware) (handler : handlerFunc) : handlerFunc :=
  fold_left (fun h m => WrapHandler m h) (rev ms) handler.

Definition handleGlobalMiddleware (v : State) (handler : handlerFunc) : handlerFunc :=
  wrapBackward (elems (heap v) (v_middlewares v)) handler.

(** Modelled from the spec: [iRoute.handleSpecifyMiddleware] ([route.go] is
    not among the sources). The route's recorded middlewares are wrapped
    around the given handler from the last one backward to the first. *)
Definition handleSpecifyMiddleware (h : Heap) (wr : iRoute) (handler : handlerFunc) : handlerFunc :=
  wrapBackward (elems h (middleware wr)) handler.

Section Package.
Context `{G : GoLib} `{T : MuxTemplates} `{B : Builtins}.

Definition Prouter_UseMiddleware (m : list Middleware) (v : State) : State :=
  let '(h, s) := append (heap v) (v_middlewares v) m in
  set_v_middlewares s (set_heap h v).

Definition notFoundHandler (w : World) : World :=
  WriteJSON http.StatusNotFound (ErrorResponse http.StatusNotFound "page not found") w.

Definition NewProuter (p : Process) (opts : list RouterOption) : State :=
  let v := New p opts in
  let v := Prouter_UseMiddleware [NewLogMiddleware; NewRecoveryMiddleware] v in
  let v := set_tree (mux.setNotFoundHandler NotFoundJSON (tree v)) v in
  set_tree (mux.setMethodNotAllowedHandler NotFoundJSON (tree v)) v.

Definition remoteIP (r : http.Request) : string :=
  match SplitHostPort (TrimSpace (http.RemoteAddr r)) with
  | None => EmptyString
  | Some (ip, _) => ip
  end.

Definition clientIP (r : http.Request) : string :=
  match ParseIP (remoteIP r) with
  | None => EmptyString
  | Some remoteIP => IPString remoteIP
  end.

Definition newContext (r : http.Request) (w : World) : ctx.Context :=
  let path := url.Path (http.URL r) in
  let raw := url.RawQuery (http.URL r) in
  let path := if negb (isEmpty raw) then path +:+ "?" +:+ raw else path in
  {| ctx.Request := r;
     ctx.Path := path;
     ctx.Method := http.Method r;
     ctx.ClientIp := clientIP r;
     ctx.startTime := clock w;
     ctx.vars := default ∅ (http.Vars r) |}.

(** The closure [makeHttpHandler wr] returns, run in the state [v] the
    [Prouter] has when the request arrives. *)
Definition makeHttpHandler (v : State) (wr : iRoute) (r : http.Request) (w : World) : Served :=
  let c := newContext r w in
  let handlerFunc := handleGlobalMiddleware v (Handler (route wr)) in
  let handlerFunc := handleSpecifyMiddleware (heap v) wr handlerFunc in
  match Handle handlerFunc c w with
  | Returned resp err w' =>
      let '(status, resp) := packResponseTmpl resp err in
      Done (WriteJSON status resp w')
  | Panicked x w' => Crashed x w'
  end.

Definition GetPathTemplate (r : mux.Route) : option string :=
  if mux.err r then None else mux.pathTemplate r.

Definition debugPrintRoute (method : string) (r : mux.Route) (handler : handlerFunc)
    (p : Process) : Process :=
  if negb (prouterMode p =? DebugMode)%Z then p
  else
    let method := if isEmpty method then "ANY" else method in
    let handlerName := Name handler in
    match GetPathTemplate r with
    | Some url =>
        {| prouterMode := prouterMode p;
           plog := plog p ++ [LogRoute method url handlerName] |}
    | None =>
        {| prouterMode := prouterMode p;
           plog := plog p ++ [LogError handlerName; LogRoute method EmptyString handlerName] |}
    end.

(** [r.router.Path(p)], [Methods], the route option and [Handler(f)]: the
    finished route is the last one of its router. *)
Definition initRouter (r : iRoute) (v : State) : State :=
  let f := RouteHandler r in
  match mux.lookupRouter (irouter r) (tree v) with
  | None => v
  | Some (conf, _) =>
      let vr := mux.withPath (Path (route r)) conf in
      let vr := if negb (isEmpty (Method (route r)))
                then mux.withMethods [Method (route r)] vr else vr in
      let vr := match routeOption r with Some o => o vr | None => vr end in
      let v := set_tree (mux.addRoute (irouter r) (mux.Leaf vr f) (tree v)) v in
      set_proc (debugPrintRoute (Method (route r)) vr (Handler (route r)) (proc v)) v
  end.

Definition runHandler (v : State) (h : httpHandler) (r : http.Request) (w : World) : Served :=
  match h with
  | RouteHandler wr => makeHttpHandler v wr r w
  | NotFoundJSON => Done (notFoundHandler w)
  | UserHandler f => Done (f r w)
  end.

Definition ServeHTTP (v : State) (r : http.Request) (w : World) : Served :=
  match mux.decide (tree v) r with
  | mux.Serve h r' => runHandler v h r' w
  | mux.Redirect location => Done (send (WRedirect 301 location) w)
  | mux.NotAllowed => Done (send (WRaw http.StatusMethodNotAllowed EmptyString) w)
  | mux.NotFound => Done (send (WRaw http.StatusNotFound "404 page not found") w)
  end.

(** ** The package: [group.go] *)

Definition RouterGroup_UseMiddleware (g : GroupRef) (m : list Middleware) (v : State) : State :=
  match getGroup g v with
  | None => v
  | Some rg =>
      let '(h, s) := append (heap v) (middlewares rg) m in
      setGroup g {| router := router rg; middlewares := s; root := root rg |} (set_heap h v)
  end.

Definition HandlerRouter (g : GroupRef) (routers : list (list Route)) (v : State) : State :=
  let wrapRoutes (v : State) (routes : list Route) :=
    fold_left
      (fun v r =>
         match getGroup g v with
         | None => v
         | Some rg =>
             initRouter {| route := r; irouter := router rg; middleware := middlewares rg;
                           routeOption := Option r |} v
         end)
      routes v in
  fold_left wrapRoutes routers v.

Definition HandleRoute (g : GroupRef) (method path : string) (handler : handlerFunc)
    (opts : list RouteOption) (v : State) : State :=
  match getGroup g v with
  | None => v
  | Some rg =>
      let routeOpt : RouteOption := fun r => fold_left (fun next opt => opt next) opts r in
      let r := {| route := NewRoute method path handler;
                  irouter := router rg;
                  middleware := if negb (root rg) then middlewares rg else emptySlice;
                  routeOption := Some routeOpt |} in
      initRouter r v
  end.

Definition Group (g : GroupRef) (prefix : string) (v : State) : GroupRef * State :=
  match getGroup g v with
  | None => (g, v)
  | Some rg =>
      match mux.lookupRouter (router rg) (tree v) with
      | None => (g, v)
      | Some (conf, routes) =>
          let sub := mux.Subrouter (mux.withPathPrefix prefix conf) in
          let v := set_tree (mux.addRoute (router rg) (mux.asNode sub) (tree v)) v in
          let ng := newGroupWithRouter (router rg ++ [length routes]) in
          (Child (length (groups v)), set_groups (groups v ++ [ng]) v)
      end
  end.

Definition staticHandler (prefix : string) (fs : http.FileSystem) : handlerFunc :=
  HandleFunc "staticHandler"
    (fun _ r _ w =>
       let u := http.URL r in
       let p := TrimPrefix (url.Path u) prefix in
       let rp := TrimPrefix (url.RawPath u) prefix in
       if (String.length p <? String.length (url.Path u))
          && (isEmpty (url.RawPath u) || (String.length rp <? String.length (url.RawPath u)))
       then
         let u2 := {| url.Path := p; url.RawPath := rp; url.RawQuery := url.RawQuery u;
                      url.Scheme := url.Scheme u |} in
         let r2 := {| http.Method := http.Method r; http.URL := u2; http.Host := http.Host r;
                      http.TLS := http.TLS r; http.RemoteAddr := http.RemoteAddr r;
                      http.Vars := http.Vars r |} in
         Returned None None (FileServer fs r2 w)
       else
         Returned (Some (ErrorResponse http.StatusNotFound "page not found"))
                  (Some "page not found") w).

Definition GET (g : GroupRef) (path : string) (handler : handlerFunc) (opt : list RouteOption) :=
  HandleRoute g http.MethodGet path handler opt.
Definition POST (g : GroupRef) (path : string) (handler : handlerFunc) (opt : list RouteOption) :=
  HandleRoute g http.MethodPost path handler opt.
Definition PUT (g : GroupRef) (path : string) (handler : handlerFunc) (opt : list RouteOption) :=
  HandleRoute g http.MethodPut path handler opt.
Definition PATCH (g : GroupRef) (path : string) (handler : handlerFunc) (opt : list RouteOption) :=
  HandleRoute g http.MethodPatch path handler opt.
Definition DELETE (g : GroupRef) (path : string) (handler : handlerFunc) (opt : list RouteOption) :=
  HandleRoute g http.MethodDelete path handler opt.
Definition OPTIONS (g : GroupRef) (path : string) (handler : handlerFunc) (opt : list RouteOption) :=
  HandleRoute g http.MethodOptions path handler opt.
Definition HEAD (g : GroupRef) (path : string) (handler : handlerFunc) (opt : list RouteOption) :=
  HandleRoute g http.MethodHead path handler opt.
Definition TRACE (g : GroupRef) (path : string) (handler : handlerFunc) (opt : list RouteOption) :=
  HandleRoute g http.MethodTrace path handler opt.
Definition Any (g : GroupRef) (path : string) (handler : handlerFunc) (opt : list RouteOption) :=
  HandleRoute g EmptyString path handler opt.

Definition StaticFS (g : GroupRef) (relativePath : string) (fs : http.FileSystem)
    (opts : list RouteOption) (v : State) : State :=
  let urlPattern := Join relativePath "{filepath}" in
  let handler := staticHandler relativePath fs in
  GET g urlPattern handler opts v.

Definition Static (g : GroupRef) (path root : string) (opts : list RouteOption) (v : State) : State :=
  StaticFS g path (Dir root) opts v.

End Package.

(** ** Programs over the registration surface *)

Inductive Cmd :=
| CProuterUse (m : list Middleware)
| CUse (g : GroupRef) (m : list Middleware)
| CHandlerRouter (g : GroupRef) (routers : list (list Route))
| CHandleRoute (g : GroupRef) (method path : string) (handler : handlerFunc)
    (opts : list RouteOption)
| CGroup (g : GroupRef) (prefix : string)
| CStaticFS (g : GroupRef) (relativePath : string) (fs : http.FileSystem)
    (opts : list RouteOption)
| CStatic (g : GroupRef) (path root : string) (opts : list RouteOption).

Section Programs.
Context `{G : GoLib} `{T : MuxTemplates} `{B : Builtins}.

Definition exec (v : State) (c : Cmd) : State :=
  match c with
  | CProuterUse m => Prouter_UseMiddleware m v
  | CUse g m => RouterGroup_UseMiddleware g m v
  | CHandlerRouter g routers => HandlerRouter g routers v
  | CHandleRoute g method path handler opts => HandleRoute g method path handler opts v
  | CGroup g prefix => snd (Group g prefix v)
  | CStaticFS g relativePath fs opts => StaticFS g relativePath fs opts v
  | CStatic g path root opts => Static g path root opts v
  end.

Definition run (cs : list Cmd) (v : State) : State := fold_left exec cs v.
End Programs.

(** ** Observing the order of calls *)

Definition traceMiddleware (name : string) : Middleware :=
  {| WrapHandler := fun h =>
       {| Name := Name h;
          Handle := fun c w =>
            match Handle h c (println ("enter " +:+ name) w) with
            | Returned resp err w' => Returned resp err (println ("exit " +:+ name) w')
            | Panicked x w' => Panicked x w'
            end |} |}.

Definition traceHandler (resp : Response) (err : error) : handlerFunc :=
  {| Name := "handler"; Handle := fun _ w => Returned resp err (println "handler" w) |}.

Definition enters (names : list string) : list string := map (fun n => "enter " +:+ n) names.
Definition exits (names : list string) : list string := map (fun n => "exit " +:+ n) (rev names).

(** A middleware that only rewrites the result of the inner handler. *)
Definition rewriteMiddleware (f : Response * error -> Response * error) : Middleware :=
  {| WrapHandler := fun h =>
       {| Name := Name h;
          Handle := fun c w =>
            match Handle h c w with
            | Returned resp err w' => Returned (fst (f (resp, err))) (snd (f (resp, err))) w'
            | Panicked x w' => Panicked x w'
            end |} |}.

(** ** Well-formed stores of slices *)

Definition valid (h : Heap) (s : slice) : Prop :=
  len s ≤ cap s ∧ len s ≤ length (backing h s) ∧ (0 < cap s → arr s < length h).

(** [apps] are the headers that are appended to, [snaps] the copies kept by
    registered routes. *)
Record wfH (h : Heap) (apps snaps : list slice) : Prop := {
  wf_apps : ∀ i a, apps !! i = Some a → valid h a;
  wf_snaps : ∀ s, s ∈ snaps → valid h s;
  wf_distinct : ∀ i j a b,
    apps !! i = Some a → apps !! j = Some b → i ≠ j → 0 < cap a → 0 < cap b → arr a ≠ arr b;
  wf_prefix : ∀ s i a,
    s ∈ snaps → apps !! i = Some a → arr s = arr a → 0 < cap a → len s ≤ len a
}.

Definition appenders (v : State) : list slice :=
  v_middlewares v :: middlewares (self v) :: map middlewares (groups v).

Definition wf (snaps : list slice) (v : State) : Prop := wfH (heap v) (appenders v) snaps.

(** the place of a group's header among the appenders *)
Definition appIndex (g : GroupRef) : nat :=
  match g with
  | Self => 1
  | Child k => 2 + k
  end.

(** [v'] has the slices and the groups of [v] *)
Definition sameSlices (v v' : State) : Prop :=
  heap v' = heap v ∧ v_middlewares v' = v_middlewares v
  ∧ self v' = self v ∧ groups v' = groups v.

(** [v'] has the fallback handlers of [v] on [v.router] *)
Definition sameFallbacks (v v' : State) : Prop :=
  mux.NotFoundHandler (tree v') = mux.NotFoundHandler (tree v)
  ∧ mux.MethodNotAllowedHandler (tree v') = mux.MethodNotAllowedHandler (tree v).

(** the host and the scheme a list of options configures: the last one given *)
Definition optionHost (opts : list RouterOption) : string :=
  fold_left (fun h o => match o with WithHost x => x | _ => h end) opts EmptyString.

Definition optionScheme (opts : list RouterOption) : string :=
  fold_left (fun s o => match o with WithScheme x => x | _ => s end) opts EmptyString.

(** the [iRoute] that [HandleRoute] hands to [initRouter] for the group [rg] *)
Definition routeFor (rg : RouterGroup) (method path : string) (handler : handlerFunc)
    (opts : list RouteOption) : iRoute :=
  {| route := NewRoute method path handler;
     irouter := router rg;
     middleware := if negb (root rg) then middlewares rg else emptySlice;
     routeOption := Some (fun r => fold_left (fun next opt => opt next) opts r) |}.

(** the route [initRouter] builds for [r] on a router with the matchers [conf] *)
Definition routeBuilt (conf : mux.Route) (r : iRoute) : mux.Route :=
  let vr := mux.withPath (Path (route r)) conf in
  let vr := if negb (isEmpty (Method (route r)))
            then mux.withMethods [Method (route r)] vr else vr in
  match routeOption r with Some o => o vr | None => vr end.

(** a verdict that can never be chosen after [first] *)
Definition shadowed {H : Type} (first later : mux.Verdict H) : Prop :=
  match first, later with
  | mux.Hit _ _, _ => True
  | mux.MethodMismatch, mux.MethodMismatch => True
  | mux.Miss, mux.Miss => True
  | _, _ => False
  end.

(** Handlers that return and serialise no envelope themselves, and
    middlewares that keep a handler so. *)
Definition quiet (h : handlerFunc) : Prop :=
  ∀ c w, ∃ resp err w', Handle h c w = Returned resp err w' ∧ envelopes w' = envelopes w.

Definition transparent (m : Middleware) : Prop := ∀ h, quiet h → quiet (WrapHandler m h).

Definition printAll (lines : list string) (w : World) : World :=
  {| wire := wire w; stdout := stdout w ++ lines; clock := clock w |}.

(** the test [staticHandler] makes on the request URL *)
Definition underPrefix (prefix : string) (u : url.URL) : bool :=
  (String.length (TrimPrefix (url.Path u) prefix) <? String.length (url.Path u))
  && (isEmpty (url.RawPath u)
      || (String.length (TrimPrefix (url.RawPath u) prefix) <? String.length (url.RawPath u))).

(** ** A concrete platform for the examples *)

Module Demo.

Fixpoint splitLast (s : string) : option (string * string) :=
  match s with
  | EmptyString => None
  | String c s' =>
      match splitLast s' with
      | Some (h, p) => Some (String c h, p)
      | None => if Ascii.eqb c ":"%char then Some (EmptyString, s') else None
      end
  end.

Fixpoint dotted (s : string) : bool :=
  match s with
  | EmptyString => true
  | String c s' =>
      let n := nat_of_ascii c in
      ((Ascii.eqb c "."%char) || ((48 <=? n) && (n <=? 57))) && dotted s'
  end.

Definition parseIP (s : string) : option string :=
  if negb (isEmpty s) && dotted s then Some s else None.

Fixpoint trimLeft (s : string) : string :=
  match s with
  | String c s' => if Ascii.eqb c " "%char then trimLeft s' else s
  | EmptyString => s
  end.

Fixpoint trimRight (s : string) : string :=
  match s with
  | EmptyString => EmptyString
  | String c s' =>
      match trimRight s' with
      | EmptyString => if Ascii.eqb c " "%char then EmptyString else String c EmptyString
      | t => String c t
      end
  end.

Definition files (name : string) : option string :=
  if String.eqb name "/x.png" then Some "PNG" else None.

Definition lib : GoLib :=
  {| IP := string;
     SplitHostPort := splitLast;
     ParseIP := parseIP;
     IPString := fun ip => ip;
     TrimSpace := fun s => trimRight (trimLeft s);
     growslice := fun old _ => 2 * old;
     Join := fun a b => TrimRightSlash a +:+ "/" +:+ b;
     Dir := fun _ => files |}.

Fixpoint segments (s : string) : list string :=
  match s with
  | EmptyString => [EmptyString]
  | String c s' =>
      if Ascii.eqb c "/"%char then EmptyString :: segments s'
      else match segments s' with
           | x :: xs => String c x :: xs
           | [] => [String c EmptyString]
           end
  end.

(** [{name}] stands for one non-empty segment *)
Definition variable (seg : string) : option string :=
  match seg with
  | String c rest =>
      if Ascii.eqb c "{"%char
      then Some (substring 0 (String.length rest - 1) rest)
      else None
  | EmptyString => None
  end.

Fixpoint matchSegments (whole : bool) (tpl path : list string) : option (gmap string string) :=
  match tpl, path with
  | [], [] => Some ∅
  | [], _ :: _ => if whole then None else Some ∅
  | _ :: _, [] => None
  | t :: tpl', p :: path' =>
      match variable t with
      | Some x =>
          if isEmpty p then None
          else match matchSegments whole tpl' path' with
               | Some vars => Some (<[x := p]> vars)
               | None => None
               end
      | None => if String.eqb t p then matchSegments whole tpl' path' else None
      end
  end.

Definition templates : MuxTemplates :=
  {| hostMatch := fun tpl host => if String.eqb tpl host then Some ∅ else None;
     prefixMatch := fun tpl path => matchSegments false (segments tpl) (segments path);
     pathMatch := fun tpl path => matchSegments true (segments tpl) (segments path);
     cleanPath := fun path => path |}.

Definition recovery : Middleware :=
  {| WrapHandler := fun h =>
       {| Name := Name h;
          Handle := fun c w =>
            match Handle h c w with
            | Panicked _ w' => Returned None (Some "internal error") w'
            | r => r
            end |} |}.

Definition builtins : Builtins :=
  {| NewLogMiddleware := traceMiddleware "log"; NewRecoveryMiddleware := recovery |}.

Definition world : World := {| wire := []; stdout := []; clock := 0 |}.

Definition request (method path remote : string) : http.Request :=
  {| http.Method := method;
     http.URL := {| url.Path := path; url.RawPath := EmptyString;
                    url.RawQuery := EmptyString; url.Scheme := EmptyString |};
     http.Host := "localhost";
     http.TLS := false;
     http.RemoteAddr := remote;
     http.Vars := None |}.

Definition wireOf (s : Served) : list WireEvent :=
  match s with Done w => wire w | Crashed _ w => wire w end.

Definition stdoutOf (s : Served) : list string :=
  match s with Done w => stdout w | Crashed _ w => stdout w end.

(** *** Programs run on it *)

Definition setup (cs : list Cmd) : State :=
  run (G := lib) cs (New startup []).

Definition serve (v : State) (method path : string) : Served :=
  ServeHTTP (G := lib) (T := templates) v (request method path "10.0.0.1:4000") world.

Definition reply (code : Z) (data : string) : handlerFunc :=
  traceHandler (Some {| Code := code; Message := EmptyString; Data := anyString data |}) None.

(** global middlewares A, B; a group with C, D and one route *)
Definition ordered : State :=
  setup [CProuterUse [traceMiddleware "A"; traceMiddleware "B"];
         CGroup Self "/g";
         CUse (Child 0) [traceMiddleware "C"; traceMiddleware "D"];
         CHandleRoute (Child 0) http.MethodGet "/x" (traceHandler None None) []].

Definition orderedGroup : RouterGroup :=
  {| router := [0]; middlewares := {| arr := 1; len := 2; cap := 2 |}; root := false |}.

(** a static mount on the root of a router made by [NewProuter] *)
Definition mounted : State :=
  run (G := lib) [CStatic Self "/assets" "./content" []]
    (NewProuter (G := lib) (B := builtins) startup []).


(** the same method and pattern registered twice *)
Definition duplicated : State :=
  setup [CHandleRoute Self http.MethodGet "/dup" (reply 201 "first") [];
         CHandleRoute Self http.MethodGet "/dup" (reply 202 "second") []].

(** a group whose slice has spare capacity when a route is registered *)
Definition grown : list Cmd :=
  [CGroup Self "/g";
   CUse (Child 0) [traceMiddleware "C"];
   CUse (Child 0) [traceMiddleware "D"];
   CUse (Child 0) [traceMiddleware "E"]].

Definition grownGroup : RouterGroup :=
  {| router := [0]; middlewares := {| arr := 2; len := 3; cap := 4 |}; root := false |}.

End Demo.

(** ** More of the package *)

(** [strings.Split s sep] for a separator of one byte *)
Fixpoint splitByte (sep : ascii) (s : string) : list string :=
  match s with
  | EmptyString => [EmptyString]
  | String c s' =>
      if Ascii.eqb c sep then EmptyString :: splitByte sep s'
      else match splitByte sep s' with
           | x :: xs => String c x :: xs
           | [] => [String c EmptyString]
           end
  end.

(** [strings.Join l sep] for a separator of one byte *)
Fixpoint joinByte (sep : ascii) (l : list string) : string :=
  match l with
  | [] => EmptyString
  | x :: rest =>
      match rest with
      | [] => x
      | _ :: _ => x +:+ String sep (joinByte sep rest)
      end
  end.

Fixpoint hasByte (c : ascii) (s : string) : bool :=
  match s with
  | EmptyString => false
  | String d s' => Ascii.eqb d c || hasByte c s'
  end.

(** [Prouter.handelrName]; [GetFuncName] is [plog.GetFuncName], and indexing
    an empty slice with [len(fs)-1] panics. *)
Definition handelrName (GetFuncName : handlerFunc -> string) (handler : handlerFunc) :
    result string :=
  let funcName := GetFuncName handler in
  let fs := splitByte "."%char funcName in
  match last fs with
  | Some name => Ok name
  | None => Panic "index out of range [-1]"
  end.

(** [Prouter.ServeHandler] *)
Definition ServeHandler (v : State) : mux.Router httpHandler := tree v.

(** the fallback handlers a list of options configures: the last one given *)
Definition optionNotFound (opts : list RouterOption) : option httpHandler :=
  fold_left (fun h o => match o with WithNotFoundHandler x => Some x | _ => h end) opts None.

Definition optionMethodNotAllowed (opts : list RouterOption) : option httpHandler :=
  fold_left (fun h o => match o with WithMethodNotAllowedHandler x => Some x | _ => h end)
    opts None.

(** A route option that only adds to the route it is given, as the methods
    of [mux.Route] do: it keeps an error and the matchers that are there. *)
Definition onlyAdds (o : RouteOption) : Prop :=
  ∀ r, (mux.err r = true → mux.err (o r) = true)
       ∧ (∀ m, m ∈ mux.matchers r → m ∈ mux.matchers (o r)).

(** the route options a call passes *)
Definition cmdOptions (c : Cmd) : list RouteOption :=
  match c with
  | CHandlerRouter _ routers => omap Option (concat routers)
  | CHandleRoute _ _ _ _ opts => opts
  | CStaticFS _ _ _ opts => opts
  | CStatic _ _ _ opts => opts
  | _ => []
  end.

(** every group points to a router of the tree *)
Definition refsValid (v : State) : Prop :=
  ∀ g rg, getGroup g v = Some rg → is_Some (mux.lookupRouter (router rg) (tree v)).

(** the mount prefix is not empty and starts the path, and the raw path too
    when there is one *)
Definition mountCovers (prefix : string) (u : url.URL) : bool :=
  negb (isEmpty prefix)
  && String.prefix prefix (url.Path u)
  && (isEmpty (url.RawPath u) || String.prefix prefix (url.RawPath u)).

(** the request the file server gets from [staticHandler] *)
Definition stripped (prefix : string) (r : http.Request) : http.Request :=
  {| http.Method := http.Method r;
     http.URL := {| url.Path := TrimPrefix (url.Path (http.URL r)) prefix;
                    url.RawPath := TrimPrefix (url.RawPath (http.URL r)) prefix;
                    url.RawQuery := url.RawQuery (http.URL r);
                    url.Scheme := url.Scheme (http.URL r) |};
     http.Host := http.Host r; http.TLS := http.TLS r;
     http.RemoteAddr := http.RemoteAddr r; http.Vars := http.Vars r |}.

Section Rejection.
Context `{T : MuxTemplates} {H : Type}.

(** a matcher that fails on [req] and is not a method matcher *)
Definition blocks (req : http.Request) (m : mux.Matcher) : Prop :=
  mux.matchOne m req = None ∧ mux.isMethods m = false.

(** a route of a router that [req] cannot get past *)
Definition rejects (req : http.Request) (n : mux.Node H) : Prop :=
  match n with
  | mux.Leaf r _ => mux.matchRoute r req = mux.Reject
  | mux.Sub c _ _ _ => mux.matchRoute c req = mux.Reject
  end.
End Rejection.


(** every router of [v] is a router of [v'], with the matchers it had *)
Definition keepsRouters (v v' : State) : Prop :=
  ∀ q c rs, mux.lookupRouter q (tree v) = Some (c, rs) →
            ∃ rs', mux.lookupRouter q (tree v') = Some (c, rs').

(** * Properties *)

(** ** The mode switch *)

(** C10. [SetMode] panics for every argument other than [DebugMode] (0) and
    [ReleaseMode] (1); for those two arguments it does not panic and the
    process-wide mode becomes the argument. *)
Theorem SetMode_spec (value : Z) (p : Process) :
  ((value ≠ DebugMode ∧ value ≠ ReleaseMode) ↔ (∃ msg, SetMode value p = Panic msg))
  ∧ ((value = DebugMode ∨ value = ReleaseMode) ↔
     (∃ p', SetMode value p = Ok p' ∧ prouterMode p' = value)).
Proof.
  unfold SetMode, DebugMode, ReleaseMode.
  destruct (Z.eqb_spec value 0) as [->|H0].
  - split; split.
    + intros [? _]. congruence.
    + intros [msg Hm]. discriminate.
    + intros _. eexists. split; reflexivity.
    + intros _. now left.
  - destruct (Z.eqb_spec value 1) as [->|H1].
    + split; split.
      * intros [_ ?]. congruence.
      * intros [msg Hm]. discriminate.
      * intros _. eexists. split; reflexivity.
      * intros _. now right.
    + split; split.
      * intros _. eexists. reflexivity.
      * intros _. split; assumption.
      * intros [?|?]; contradiction.
      * intros [p' [Hp _]]. discriminate.
Qed.

Example SetMode_release : SetMode 1 startup = Ok {| prouterMode := ReleaseMode; plog := [] |}.
Proof. reflexivity. Qed.

Example SetMode_test :
  SetMode 2 startup = Panic "Prouter mode unknown: 2 (available mode: debug release test)".
Proof. reflexivity. Qed.

(** ** Response normalisation *)

Lemma packResponseTmpl_status (resp : Response) (err : error) :
  fst (packResponseTmpl resp err) = Code (snd (packResponseTmpl resp err)).
Proof. reflexivity. Qed.

(** C2, as amended. The envelope of a result pair: with an error, the message
    is the result's own when that is non-empty and the error's text otherwise,
    and the code is the result's own unless that is 0 or 200, when it is 500;
    without an error the message is empty whatever the result says, and the
    code is the result's, 200 when there is no result; the data are the
    result's, null when there is no result. *)
Theorem packResponseTmpl_spec (resp : Response) (err : error) :
  let ret := snd (packResponseTmpl resp err) in
  fst (packResponseTmpl resp err) = Code ret
  ∧ Data ret = match resp with Some r => GetData r | None => anyNil end
  ∧ match err with
    | Some e =>
        Message ret =
          match resp with
          | Some r => if isEmpty (GetMessage r) then e else GetMessage r
          | None => e
          end
        ∧ Code ret =
          match resp with
          | Some r => if bool_decide (GetCode r = 0%Z ∨ GetCode r = 200%Z)
                      then 500%Z else GetCode r
          | None => 500%Z
          end
    | None =>
        Message ret = EmptyString
        ∧ Code ret = match resp with Some r => GetCode r | None => 200%Z end
    end.
Proof.
  destruct resp as [r|], err as [e|]; cbn; repeat split; try reflexivity.
  unfold GetCode.
  destruct (Z.eqb_spec (Code r) 0) as [E0|N0]; cbn.
  - rewrite bool_decide_eq_true_2 by (now left). reflexivity.
  - destruct (Z.eqb_spec (Code r) 200) as [E2|N2]; cbn.
    + rewrite bool_decide_eq_true_2 by (now right). reflexivity.
    + rewrite bool_decide_eq_false_2 by (intros [?|?]; contradiction). reflexivity.
Qed.

(** C2 as stated fails: a result with a message and no error loses the
    message. *)
Lemma packResponseTmpl_drops_message :
  let r := {| Code := 201; Message := "created"; Data := anyString "id-7" |} in
  Message (snd (packResponseTmpl (Some r) None)) ≠ GetMessage r
  ∧ snd (packResponseTmpl (Some r) None)
    = {| Code := 201; Message := EmptyString; Data := anyString "id-7" |}.
Proof. split; [discriminate | reflexivity]. Qed.

Example pack_created :
  packResponseTmpl (Some {| Code := 201; Message := EmptyString; Data := anyNil |}) None
  = (201%Z, {| Code := 201; Message := EmptyString; Data := anyNil |}).
Proof. reflexivity. Qed.

Example pack_error_only :
  packResponseTmpl None (Some "boom")
  = (500%Z, {| Code := 500; Message := "boom"; Data := anyNil |}).
Proof. reflexivity. Qed.

(** ** Options *)

Lemma applyOption_conf (v : State) (opt : RouterOption) :
  mux.conf (tree (applyOption v opt)) = mux.conf (tree v).
Proof. destruct opt; reflexivity. Qed.

Lemma applyOptions_conf (opts : list RouterOption) (v : State) :
  mux.conf (tree (fold_left applyOption opts v)) = mux.conf (tree v).
Proof.
  revert v. induction opts as [|o opts IH]; intros v; cbn; [reflexivity|].
  rewrite IH. apply applyOption_conf.
Qed.

Lemma isEmpty_true (s : string) : isEmpty s = true ↔ s = EmptyString.
Proof. destruct s; cbn; split; congruence. Qed.

Lemma isEmpty_false (s : string) : isEmpty s = false ↔ s ≠ EmptyString.
Proof. destruct s; cbn; split; congruence. Qed.

Lemma applyOptions_host (opts : list RouterOption) (v : State) :
  host (fold_left applyOption opts v)
  = fold_left (fun h o => match o with WithHost x => x | _ => h end) opts (host v).
Proof.
  revert v. induction opts as [|o opts IH]; intros v; cbn; [reflexivity|].
  rewrite IH. now destruct o.
Qed.

Lemma applyOptions_scheme (opts : list RouterOption) (v : State) :
  scheme (fold_left applyOption opts v)
  = fold_left (fun s o => match o with WithScheme x => x | _ => s end) opts (scheme v).
Proof.
  revert v. induction opts as [|o opts IH]; intros v; cbn; [reflexivity|].
  rewrite IH. now destruct o.
Qed.

(** C9. When the options configure a scheme that is not empty, the scheme
    matcher that [parseOptions] installs on the router holds the configured
    host, not the scheme; with no host configured it holds the empty string. *)
Theorem parseOptions_scheme_uses_host (p : Process) (opts : list RouterOption) :
  optionScheme opts ≠ EmptyString →
  mux.matchers (mux.conf (tree (New p opts)))
  = (if isEmpty (optionHost opts) then [] else [mux.Host (optionHost opts)])
    ++ [mux.Schemes [optionHost opts]]
  ∧ (optionHost opts = EmptyString →
     mux.matchers (mux.conf (tree (New p opts))) = [mux.Schemes [EmptyString]]).
Proof.
  unfold New, parseOptions, optionHost, optionScheme.
  set (v0 := {| proc := p |}).
  set (v1 := fold_left applyOption opts v0).
  assert (Hc : mux.matchers (mux.conf (tree v1)) = []).
  { unfold v1. rewrite applyOptions_conf. reflexivity. }
  assert (Hhost : optionHost opts = host v1)
    by (symmetry; exact (applyOptions_host opts v0)).
  assert (Hscheme : optionScheme opts = scheme v1)
    by (symmetry; exact (applyOptions_scheme opts v0)).
  unfold optionHost in Hhost. unfold optionScheme in Hscheme. rewrite Hhost, Hscheme.
  intros Hne. apply isEmpty_false in Hne.
  destruct (isEmpty (host v1)) eqn:Hh; cbn [negb set_tree scheme host tree];
    rewrite Hne; cbn; rewrite ?Hh, Hc.
  - split; [reflexivity|]. intros ->. reflexivity.
  - split; [reflexivity|]. intros He. rewrite He in Hh. discriminate.
Qed.

Lemma parseOptions_scheme_uses_host_witness :
  optionScheme [WithScheme "https"] ≠ EmptyString
  ∧ mux.matchers (mux.conf (tree (New startup [WithScheme "https"])))
    = [mux.Schemes [EmptyString]].
Proof.
  split; [discriminate|].
  apply (parseOptions_scheme_uses_host startup [WithScheme "https"]);
    [discriminate | reflexivity].
Defined.

Example scheme_option_with_host :
  mux.matchers (mux.conf (tree (New startup [WithHost "example.com"; WithScheme "https"])))
  = [mux.Host "example.com"; mux.Schemes ["example.com"]].
Proof. reflexivity. Qed.

(** ** Worlds *)

Lemma printAll_nil (w : World) : printAll [] w = w.
Proof. destruct w. unfold printAll. cbn. now rewrite app_nil_r. Qed.

Lemma println_printAll (line : string) (w : World) : println line w = printAll [line] w.
Proof. reflexivity. Qed.

Lemma printAll_printAll (l1 l2 : list string) (w : World) :
  printAll l2 (printAll l1 w) = printAll (l1 ++ l2) w.
Proof. unfold printAll. cbn. now rewrite app_assoc. Qed.



(** ** Middleware composition *)

Lemma wrapBackward_foldr (ms : list Middleware) (h : handlerFunc) :
  wrapBackward ms h = foldr WrapHandler h ms.
Proof.
  unfold wrapBackward. revert h.
  induction ms as [|m ms IH]; intros h; cbn; [reflexivity|].
  rewrite fold_left_app. cbn. now rewrite IH.
Qed.

(** The handler that [makeHttpHandler] runs: the route's own middlewares
    around the global ones around the handler. *)
Lemma effective_handler (v : State) (wr : iRoute) :
  handleSpecifyMiddleware (heap v) wr (handleGlobalMiddleware v (Handler (route wr)))
  = foldr WrapHandler (Handler (route wr))
      (elems (heap v) (middleware wr) ++ elems (heap v) (v_middlewares v)).
Proof.
  unfold handleSpecifyMiddleware, handleGlobalMiddleware.
  now rewrite !wrapBackward_foldr, foldr_app.
Qed.

Lemma exits_cons (n : string) (ns : list string) :
  exits (n :: ns) = exits ns ++ ["exit " +:+ n].
Proof. unfold exits. cbn. now rewrite map_app. Qed.

Lemma trace_chain (names : list string) (resp : Response) (err : error)
    (c : ctx.Context) (w : World) :
  Handle (foldr WrapHandler (traceHandler resp err) (map traceMiddleware names)) c w
  = Returned resp err (printAll (enters names ++ ["handler"] ++ exits names) w).
Proof.
  revert w. induction names as [|n ns IH]; intros w.
  - reflexivity.
  - cbn [map foldr traceMiddleware WrapHandler Handle].
    rewrite IH, !println_printAll, !printAll_printAll.
    rewrite exits_cons. cbn. now rewrite <- !app_assoc.
Qed.

Section Dispatch.
Context `{G : GoLib} `{T : MuxTemplates} `{B : Builtins}.

(** C1, as amended. With tracing middlewares [gs] registered globally and
    [ms] recorded for the route, a dispatch enters the route's middlewares
    first, then the global ones, then the handler, and leaves in the
    opposite order: the global middlewares sit between the route's and the
    handler. *)
Theorem middleware_order (v : State) (wr : iRoute) (gs ms : list string)
    (resp : Response) (err : error) (r : http.Request) (w : World) :
  elems (heap v) (v_middlewares v) = map traceMiddleware gs →
  elems (heap v) (middleware wr) = map traceMiddleware ms →
  Handler (route wr) = traceHandler resp err →
  ∃ w', makeHttpHandler v wr r w = Done w'
        ∧ stdout w' = stdout w ++ enters (ms ++ gs) ++ ["handler"] ++ exits (ms ++ gs).
Proof.
  intros Hg Hm Hh. unfold makeHttpHandler.
  rewrite effective_handler, Hg, Hm, Hh, <- map_app, trace_chain.
  destruct (packResponseTmpl resp err) as [status body].
  eexists. split; reflexivity.
Qed.

(** ** One envelope per request *)



Lemma traceHandler_quiet (resp : Response) (err : error) : quiet (traceHandler resp err).
Proof. intros c w. now exists resp, err, (println "handler" w). Qed.

Lemma rewriteMiddleware_transparent (f : Response * error → Response * error) :
  transparent (rewriteMiddleware f).
Proof.
  intros h Hq c w. destruct (Hq c w) as (resp & err & w' & Hh & He).
  cbn. rewrite Hh. now eexists _, _, w'.
Qed.




(** ** The client address *)

(** C8. The client address in the request context comes from parsing the
    remote socket address; when the address does not split into host and
    port, or the host is not an IP address, it is the empty string. *)
Theorem clientIP_spec (r : http.Request) (w : World) :
  ParseIP EmptyString = None →
  ctx.ClientIp (newContext r w)
  = match SplitHostPort (TrimSpace (http.RemoteAddr r)) with
    | Some (ip, _) =>
        match ParseIP ip with
        | Some a => IPString a
        | None => EmptyString
        end
    | None => EmptyString
    end.
Proof.
  intros Hempty. cbn. unfold clientIP, remoteIP.
  destruct (SplitHostPort _) as [[ip port]|]; [reflexivity|].
  now rewrite Hempty.
Qed.

(** ** Static files *)


End Dispatch.

(** ** Slices: what [append] does to the other holders of an array *)

Section Slices.
Context `{G : GoLib}.

Lemma backing_lookup (h : Heap) (s : slice) (c : list Middleware) :
  h !! arr s = Some c → backing h s = c.
Proof. unfold backing. now intros ->. Qed.

Lemma backing_out (h : Heap) (s : slice) : length h ≤ arr s → backing h s = [].
Proof. intros Hge. unfold backing. now rewrite (proj2 (lookup_ge_None h (arr s)) Hge). Qed.

Lemma written_length (c ms : list Middleware) (l : nat) :
  l ≤ length c →
  length (take l c ++ ms ++ drop (l + length ms) c) = length c `max` (l + length ms).
Proof. intros Hl. rewrite !length_app, length_take, length_drop. lia. Qed.

Lemma append_in_place (h : Heap) (a : slice) (ms : list Middleware) :
  len a + length ms ≤ cap a →
  append h a ms
  = (<[arr a := take (len a) (backing h a) ++ ms ++ drop (len a + length ms) (backing h a)]> h,
     {| arr := arr a; len := len a + length ms; cap := cap a |}).
Proof. intros Hle. unfold append. now rewrite (proj2 (Nat.leb_le _ _) Hle). Qed.

Lemma append_realloc (h : Heap) (a : slice) (ms : list Middleware) :
  cap a < len a + length ms →
  append h a ms
  = (h ++ [take (len a) (backing h a) ++ ms],
     {| arr := length h; len := len a + length ms;
        cap := (len a + length ms) `max` growslice (cap a) (len a + length ms) |}).
Proof. intros Hlt. unfold append. now rewrite (proj2 (Nat.leb_gt _ _) Hlt). Qed.

(** the array an in-place append writes to, seen afterwards *)
Lemma backing_after_in_place (h : Heap) (a s : slice) (new : list Middleware) :
  arr s = arr a → arr a < length h → backing (<[arr a := new]> h) s = new.
Proof.
  intros He Hlt. unfold backing. rewrite He, list_lookup_insert_eq by assumption.
  reflexivity.
Qed.

Lemma backing_after_other (h : Heap) (a s : slice) (new : list Middleware) :
  arr s ≠ arr a → backing (<[arr a := new]> h) s = backing h s.
Proof. intros Hne. unfold backing. now rewrite list_lookup_insert_ne by congruence. Qed.

Lemma backing_after_alloc (h : Heap) (s : slice) (new : list Middleware) :
  arr s < length h → backing (h ++ [new]) s = backing h s.
Proof. intros Hlt. unfold backing. now rewrite lookup_app_l. Qed.

Lemma valid_out (h : Heap) (s : slice) : valid h s → length h ≤ arr s → len s = 0.
Proof. intros (_ & Hl & _) Hge. rewrite backing_out in Hl by assumption. cbn in Hl. lia. Qed.

(** A holder [s] keeps its elements when [ms] is appended through [a],
    provided [s] is no longer than [a] if it shares the array of [a]. *)
Lemma append_frame (h : Heap) (a s : slice) (ms : list Middleware) :
  valid h a → valid h s →
  (arr s = arr a → 0 < cap a → len s ≤ len a) →
  elems (append h a ms).1 s = elems h s.
Proof.
  intros Ha Hs Hshare. unfold elems.
  destruct (Nat.le_gt_cases (len a + length ms) (cap a)) as [Hle|Hgt].
  - rewrite append_in_place by assumption. cbn [fst].
    destruct (decide (arr s = arr a)) as [He|Hne];
      [|now rewrite backing_after_other].
    destruct (Nat.lt_ge_cases (arr a) (length h)) as [Hin|Hout];
      [|now rewrite list_insert_ge].
    rewrite backing_after_in_place by assumption.
    assert (Hb : backing h s = backing h a) by (unfold backing; now rewrite He).
    rewrite Hb. destruct Ha as (_ & Hla & _).
    destruct (Nat.eq_0_gt_0_cases (cap a)) as [Hz|Hpos].
    + assert (len a = 0) as -> by lia.
      assert (ms = []) as -> by (apply length_zero_iff_nil; lia).
      cbn. now rewrite drop_0.
    + specialize (Hshare He Hpos).
      rewrite take_app_le by (rewrite length_take; lia).
      rewrite take_take. f_equal. lia.
  - rewrite append_realloc by assumption. cbn [fst].
    destruct (Nat.lt_ge_cases (arr s) (length h)) as [Hin|Hout].
    + now rewrite backing_after_alloc.
    + rewrite (valid_out _ _ Hs Hout). now rewrite !take_0.
Qed.

Lemma append_valid_frame (h : Heap) (a s : slice) (ms : list Middleware) :
  valid h a → valid h s → valid (append h a ms).1 s.
Proof.
  intros Ha Hs.
  destruct (Nat.le_gt_cases (len a + length ms) (cap a)) as [Hle|Hgt].
  - rewrite append_in_place by assumption. cbn [fst].
    destruct Hs as (H1 & H2 & H3). split; [assumption|]. split.
    + destruct (decide (arr s = arr a)) as [He|Hne];
        [|now rewrite backing_after_other].
      destruct (Nat.lt_ge_cases (arr a) (length h)) as [Hin|Hout];
        [|now rewrite list_insert_ge].
      rewrite backing_after_in_place by assumption.
      assert (Hb : backing h s = backing h a) by (unfold backing; now rewrite He).
      destruct Ha as (_ & Hla & _).
      rewrite written_length by assumption. rewrite Hb in H2. lia.
    + now rewrite length_insert.
  - rewrite append_realloc by assumption. cbn [fst].
    destruct Hs as (H1 & H2 & H3). split; [assumption|]. split.
    + destruct (Nat.lt_ge_cases (arr s) (length h)) as [Hin|Hout].
      * now rewrite backing_after_alloc.
      * rewrite backing_out in H2 by assumption. cbn in H2. lia.
    + intros Hc. rewrite length_app. cbn. specialize (H3 Hc). lia.
Qed.

Lemma append_valid_self (h : Heap) (a : slice) (ms : list Middleware) :
  valid h a → valid (append h a ms).1 (append h a ms).2.
Proof.
  intros (H1 & H2 & H3).
  destruct (Nat.le_gt_cases (len a + length ms) (cap a)) as [Hle|Hgt].
  - rewrite append_in_place by assumption. cbn [fst snd].
    split; [assumption|]. split; cbn [arr len cap].
    + destruct (Nat.lt_ge_cases (arr a) (length h)) as [Hin|Hout].
      * unfold backing at 1. cbn [arr].
        rewrite list_lookup_insert_eq by assumption. cbn.
        rewrite written_length by assumption. lia.
      * destruct (Nat.eq_0_gt_0_cases (cap a)) as [Hz|Hpos]; [lia|].
        specialize (H3 Hpos). lia.
    + intros Hc. rewrite length_insert. auto.
  - rewrite append_realloc by assumption. cbn [fst snd].
    split; cbn [arr len cap]; [lia|]. split.
    + unfold backing at 1. cbn [arr].
      rewrite lookup_app_r by lia. rewrite Nat.sub_diag. cbn.
      rewrite length_app, length_take. lia.
    + intros _. rewrite length_app. cbn. lia.
Qed.

(** what the appended header shows *)
Lemma append_elems (h : Heap) (a : slice) (ms : list Middleware) :
  valid h a → elems (append h a ms).1 (append h a ms).2 = elems h a ++ ms.
Proof.
  intros (H1 & H2 & H3). unfold elems.
  destruct (Nat.le_gt_cases (len a + length ms) (cap a)) as [Hle|Hgt].
  - rewrite append_in_place by assumption. cbn [fst snd arr len cap].
    destruct (Nat.lt_ge_cases (arr a) (length h)) as [Hin|Hout].
    + unfold backing at 1. cbn [arr].
      rewrite list_lookup_insert_eq by assumption. cbn.
      rewrite app_assoc.
      rewrite take_app_le by (rewrite length_app, length_take; lia).
      rewrite take_ge by (rewrite length_app, length_take; lia).
      reflexivity.
    + destruct (Nat.eq_0_gt_0_cases (cap a)) as [Hz|Hpos];
        [|specialize (H3 Hpos); lia].
      assert (len a = 0) as -> by lia.
      assert (ms = []) as -> by (apply length_zero_iff_nil; lia).
      cbn. now rewrite !take_0.
  - rewrite append_realloc by assumption. cbn [fst snd arr len cap].
    unfold backing at 1. cbn [arr].
    rewrite lookup_app_r by lia. rewrite Nat.sub_diag. cbn.
    rewrite take_ge by (rewrite length_app, length_take; lia).
    reflexivity.
Qed.

Lemma append_header (h : Heap) (a : slice) (ms : list Middleware) :
  (arr (append h a ms).2 = arr a ∧ cap (append h a ms).2 = cap a
   ∧ len a ≤ len (append h a ms).2)
  ∨ arr (append h a ms).2 = length h.
Proof.
  destruct (Nat.le_gt_cases (len a + length ms) (cap a)) as [Hle|Hgt].
  - rewrite append_in_place by assumption. left. cbn. repeat split; lia.
  - rewrite append_realloc by assumption. now right.
Qed.

Lemma wfH_share (h : Heap) (apps snaps : list slice) (i j : nat) (a b : slice) :
  wfH h apps snaps → apps !! i = Some a → apps !! j = Some b → i ≠ j →
  arr b = arr a → 0 < cap a → len b ≤ len a.
Proof.
  intros Hwf Hi Hj Hne He Hpos.
  destruct (Nat.eq_0_gt_0_cases (cap b)) as [Hz|Hb].
  - destruct (wf_apps _ _ _ Hwf j b Hj) as (Hl & _). lia.
  - exfalso. exact (wf_distinct _ _ _ Hwf j i b a Hj Hi (not_eq_sym Hne) Hb Hpos He).
Qed.

(** Appending through one of the headers keeps the store well formed. *)
Lemma wfH_append (h : Heap) (apps snaps : list slice) (i : nat) (a : slice)
    (ms : list Middleware) :
  wfH h apps snaps → apps !! i = Some a →
  wfH (append h a ms).1 (<[i := (append h a ms).2]> apps) snaps.
Proof.
  intros Hwf Hi.
  assert (Ha : valid h a) by exact (wf_apps _ _ _ Hwf i a Hi).
  split.
  - intros j b Hj. apply list_lookup_insert_Some in Hj as [(<- & <- & _)|(Hne & Hj)].
    + now apply append_valid_self.
    + apply append_valid_frame; [assumption|]. exact (wf_apps _ _ _ Hwf j b Hj).
  - intros s Hs. apply append_valid_frame; [assumption|]. exact (wf_snaps _ _ _ Hwf s Hs).
  - intros j k b c Hj Hk Hjk Hb Hc.
    apply list_lookup_insert_Some in Hj as [(<- & <- & _)|(Hnj & Hj)];
      apply list_lookup_insert_Some in Hk as [(<- & <- & _)|(Hnk & Hk)].
    + congruence.
    + destruct (append_header h a ms) as [(Harr & Hcap & _)|Harr]; rewrite Harr.
      * rewrite Hcap in Hb.
        exact (wf_distinct _ _ _ Hwf i k a c Hi Hk Hjk Hb Hc).
      * destruct (wf_apps _ _ _ Hwf k c Hk) as (_ & _ & H3). specialize (H3 Hc). lia.
    + destruct (append_header h a ms) as [(Harr & Hcap & _)|Harr]; rewrite Harr.
      * rewrite Hcap in Hc.
        exact (wf_distinct _ _ _ Hwf j i b a Hj Hi Hjk Hb Hc).
      * destruct (wf_apps _ _ _ Hwf j b Hj) as (_ & _ & H3). specialize (H3 Hb). lia.
    + exact (wf_distinct _ _ _ Hwf j k b c Hj Hk Hjk Hb Hc).
  - intros s j b Hs Hj He Hb.
    apply list_lookup_insert_Some in Hj as [(<- & <- & _)|(Hnj & Hj)].
    + destruct (append_header h a ms) as [(Harr & Hcap & Hlen)|Harr].
      * rewrite Harr in He. rewrite Hcap in Hb.
        pose proof (wf_prefix _ _ _ Hwf s i a Hs Hi He Hb). lia.
      * rewrite Harr in He.
        rewrite (valid_out h s (wf_snaps _ _ _ Hwf s Hs)) by lia. lia.
    + exact (wf_prefix _ _ _ Hwf s j b Hs Hj He Hb).
Qed.

(** ... and shows every other header and every snapshot what it showed. *)
Lemma wfH_append_snapshot (h : Heap) (apps snaps : list slice) (i : nat) (a s : slice)
    (ms : list Middleware) :
  wfH h apps snaps → apps !! i = Some a → s ∈ snaps →
  elems (append h a ms).1 s = elems h s.
Proof.
  intros Hwf Hi Hs. apply append_frame.
  - exact (wf_apps _ _ _ Hwf i a Hi).
  - exact (wf_snaps _ _ _ Hwf s Hs).
  - intros He Hpos. exact (wf_prefix _ _ _ Hwf s i a Hs Hi He Hpos).
Qed.

Lemma wfH_append_other (h : Heap) (apps snaps : list slice) (i j : nat) (a b : slice)
    (ms : list Middleware) :
  wfH h apps snaps → apps !! i = Some a → apps !! j = Some b → i ≠ j →
  elems (append h a ms).1 b = elems h b.
Proof.
  intros Hwf Hi Hj Hne. apply append_frame.
  - exact (wf_apps _ _ _ Hwf i a Hi).
  - exact (wf_apps _ _ _ Hwf j b Hj).
  - intros He Hpos. exact (wfH_share h apps snaps i j a b Hwf Hi Hj Hne He Hpos).
Qed.

(** A route that copies the header of a group, or keeps none. *)
Lemma wfH_snapshot (h : Heap) (apps snaps : list slice) (i : nat) (a : slice) :
  wfH h apps snaps → apps !! i = Some a → wfH h apps (a :: snaps).
Proof.
  intros Hwf Hi. split.
  - exact (wf_apps _ _ _ Hwf).
  - intros s Hs. apply elem_of_cons in Hs as [->|Hs].
    + exact (wf_apps _ _ _ Hwf i a Hi).
    + exact (wf_snaps _ _ _ Hwf s Hs).
  - exact (wf_distinct _ _ _ Hwf).
  - intros s j b Hs Hj He Hb. apply elem_of_cons in Hs as [->|Hs].
    + destruct (decide (i = j)) as [<-|Hne]; [replace b with a by congruence; lia|].
      exact (wfH_share h apps snaps j i b a Hwf Hj Hi (not_eq_sym Hne) He Hb).
    + exact (wf_prefix _ _ _ Hwf s j b Hs Hj He Hb).
Qed.

Lemma valid_emptySlice (h : Heap) : valid h emptySlice.
Proof. unfold valid. cbn. repeat split; lia. Qed.

Lemma wfH_snapshot_nil (h : Heap) (apps snaps : list slice) :
  wfH h apps snaps → wfH h apps (emptySlice :: snaps).
Proof.
  intros Hwf. split.
  - exact (wf_apps _ _ _ Hwf).
  - intros s Hs. apply elem_of_cons in Hs as [->|Hs].
    + apply valid_emptySlice.
    + exact (wf_snaps _ _ _ Hwf s Hs).
  - exact (wf_distinct _ _ _ Hwf).
  - intros s j b Hs Hj He Hb. apply elem_of_cons in Hs as [->|Hs].
    + cbn. lia.
    + exact (wf_prefix _ _ _ Hwf s j b Hs Hj He Hb).
Qed.

Lemma wfH_new_group (h : Heap) (apps snaps : list slice) :
  wfH h apps snaps → wfH h (apps ++ [emptySlice]) snaps.
Proof.
  intros Hwf. split.
  - intros j b Hj. apply lookup_snoc_Some in Hj as [(_ & Hj)|(_ & <-)].
    + exact (wf_apps _ _ _ Hwf j b Hj).
    + apply valid_emptySlice.
  - exact (wf_snaps _ _ _ Hwf).
  - intros j k b c Hj Hk Hjk Hb Hc.
    apply lookup_snoc_Some in Hj as [(_ & Hj)|(_ & <-)]; [|cbn in Hb; lia].
    apply lookup_snoc_Some in Hk as [(_ & Hk)|(_ & <-)]; [|cbn in Hc; lia].
    exact (wf_distinct _ _ _ Hwf j k b c Hj Hk Hjk Hb Hc).
  - intros s j b Hs Hj He Hb.
    apply lookup_snoc_Some in Hj as [(_ & Hj)|(_ & <-)]; [|cbn in Hb; lia].
    exact (wf_prefix _ _ _ Hwf s j b Hs Hj He Hb).
Qed.

End Slices.

(** ** Registration and the store *)

Section Registration.
Context `{G : GoLib} `{T : MuxTemplates} `{B : Builtins}.

Lemma sameSlices_refl (v : State) : sameSlices v v.
Proof. now repeat split. Qed.

Lemma sameSlices_trans (v1 v2 v3 : State) :
  sameSlices v1 v2 → sameSlices v2 v3 → sameSlices v1 v3.
Proof. intros (?&?&?&?) (?&?&?&?). repeat split; congruence. Qed.

Lemma sameFallbacks_refl (v : State) : sameFallbacks v v.
Proof. now split. Qed.

Lemma sameFallbacks_trans (v1 v2 v3 : State) :
  sameFallbacks v1 v2 → sameFallbacks v2 v3 → sameFallbacks v1 v3.
Proof. intros (?&?) (?&?). split; congruence. Qed.

(** nothing was registered: the state is the one before *)
Ltac unchanged := split; [apply sameSlices_refl | apply sameFallbacks_refl].

Lemma initRouter_same (r : iRoute) (v : State) :
  sameSlices v (initRouter r v) ∧ sameFallbacks v (initRouter r v).
Proof.
  unfold initRouter. destruct (mux.lookupRouter _ _) as [[conf rs]|].
  - now repeat split.
  - unchanged.
Qed.

Lemma HandleRoute_same (g : GroupRef) (method path : string) (handler : handlerFunc)
    (opts : list RouteOption) (v : State) :
  sameSlices v (HandleRoute g method path handler opts v)
  ∧ sameFallbacks v (HandleRoute g method path handler opts v).
Proof.
  unfold HandleRoute. destruct (getGroup g v) as [rg|].
  - apply initRouter_same.
  - unchanged.
Qed.

Lemma HandlerRouter_same (g : GroupRef) (routers : list (list Route)) (v : State) :
  sameSlices v (HandlerRouter g routers v) ∧ sameFallbacks v (HandlerRouter g routers v).
Proof.
  unfold HandlerRouter. revert v.
  induction routers as [|routes routers IH]; intros v; cbn [fold_left].
  - unchanged.
  - match goal with |- context [fold_left _ routers ?x] => set (v' := x) end.
    assert (Hv' : sameSlices v v' ∧ sameFallbacks v v').
    { subst v'. clear IH. revert v.
      induction routes as [|r routes IHr]; intros v; cbn [fold_left].
      - unchanged.
      - match goal with |- context [fold_left _ routes ?x] => set (v1 := x) end.
        assert (H1 : sameSlices v v1 ∧ sameFallbacks v v1).
        { subst v1. destruct (getGroup g v) as [rg|].
          - apply initRouter_same.
          - unchanged. }
        destruct H1 as [Ha Hb]. destruct (IHr v1) as [Hc Hd].
        split; [eapply sameSlices_trans | eapply sameFallbacks_trans]; eassumption. }
    destruct Hv' as [Ha Hb]. destruct (IH v') as [Hc Hd].
    split; [eapply sameSlices_trans | eapply sameFallbacks_trans]; eassumption.
Qed.

Lemma Group_same (g : GroupRef) (prefix : string) (v : State) :
  let v' := (Group g prefix v).2 in
  heap v' = heap v ∧ v_middlewares v' = v_middlewares v ∧ self v' = self v
  ∧ (groups v' = groups v ∨ ∃ p, groups v' = groups v ++ [newGroupWithRouter p])
  ∧ sameFallbacks v v'.
Proof.
  cbn zeta. unfold Group. destruct (getGroup g v) as [rg|].
  - destruct (mux.lookupRouter _ _) as [[conf rs]|]; cbn.
    + repeat split; try reflexivity. right. now eexists.
    + repeat split; try reflexivity. now left.
  - cbn. repeat split; try reflexivity. now left.
Qed.

Lemma appenders_lookup (g : GroupRef) (v : State) :
  appenders v !! appIndex g = middlewares <$> getGroup g v.
Proof.
  destruct g as [|k]; cbn; [reflexivity|]. apply list_lookup_fmap.
Qed.

Lemma appenders_setGroup (g : GroupRef) (rg : RouterGroup) (s : slice) (h : Heap)
    (v : State) :
  getGroup g v = Some rg →
  appenders (setGroup g {| router := router rg; middlewares := s; root := root rg |}
               (set_heap h v))
  = <[appIndex g := s]> (appenders v).
Proof.
  intros Hg. destruct g as [|k]; cbn; [reflexivity|].
  unfold appenders. cbn. do 2 f_equal. now rewrite list_fmap_insert.
Qed.

Lemma wf_sameSlices (snaps : list slice) (v v' : State) :
  sameSlices v v' → wf snaps v → wf snaps v'.
Proof.
  intros (Hh & Hm & Hs & Hg). unfold wf, appenders. now rewrite Hh, Hm, Hs, Hg.
Qed.

Lemma wf_Prouter_UseMiddleware (snaps : list slice) (m : list Middleware) (v : State) :
  wf snaps v → wf snaps (Prouter_UseMiddleware m v).
Proof.
  intros Hwf. unfold Prouter_UseMiddleware.
  pose proof (wfH_append (heap v) (appenders v) snaps 0 (v_middlewares v) m Hwf eq_refl) as H.
  destruct (append (heap v) (v_middlewares v) m) as [h s]. exact H.
Qed.

Lemma wf_RouterGroup_UseMiddleware (snaps : list slice) (g : GroupRef)
    (m : list Middleware) (v : State) :
  wf snaps v → wf snaps (RouterGroup_UseMiddleware g m v).
Proof.
  intros Hwf. unfold RouterGroup_UseMiddleware.
  destruct (getGroup g v) as [rg|] eqn:Hg; [|assumption].
  assert (Hi : appenders v !! appIndex g = Some (middlewares rg))
    by (now rewrite appenders_lookup, Hg).
  pose proof (wfH_append (heap v) (appenders v) snaps _ _ m Hwf Hi) as H.
  destruct (append (heap v) (middlewares rg) m) as [h s].
  unfold wf. rewrite appenders_setGroup by assumption.
  destruct g; exact H.
Qed.

Lemma wf_Group (snaps : list slice) (g : GroupRef) (prefix : string) (v : State) :
  wf snaps v → wf snaps (Group g prefix v).2.
Proof.
  intros Hwf. destruct (Group_same g prefix v) as (Hh & Hm & Hs & Hg & _).
  unfold wf, appenders. rewrite Hh, Hm, Hs.
  destruct Hg as [->|[p ->]]; [exact Hwf|].
  rewrite map_app. cbn [map].
  exact (wfH_new_group (heap v) (appenders v) snaps Hwf).
Qed.

Lemma wf_exec (snaps : list slice) (c : Cmd) (v : State) :
  wf snaps v → wf snaps (exec v c).
Proof.
  intros Hwf. destruct c as [m|g m|g routers|g method path handler opts|g pfx|g relativePath fs opts|g path root0 opts]; cbn [exec].
  - now apply wf_Prouter_UseMiddleware.
  - now apply wf_RouterGroup_UseMiddleware.
  - eapply wf_sameSlices; [apply HandlerRouter_same | assumption].
  - eapply wf_sameSlices; [apply HandleRoute_same | assumption].
  - now apply wf_Group.
  - eapply wf_sameSlices; [apply HandleRoute_same | assumption].
  - eapply wf_sameSlices; [apply HandleRoute_same | assumption].
Qed.

Lemma wf_run (snaps : list slice) (cs : list Cmd) (v : State) :
  wf snaps v → wf snaps (run cs v).
Proof.
  unfold run. revert v. induction cs as [|c cs IH]; intros v Hwf; cbn; [assumption|].
  apply IH. now apply wf_exec.
Qed.

Lemma applyOptions_slices (opts : list RouterOption) (v : State) :
  sameSlices v (fold_left applyOption opts v).
Proof.
  revert v. induction opts as [|o opts IH]; intros v; cbn; [apply sameSlices_refl|].
  eapply sameSlices_trans; [|apply IH]. destruct o; now repeat split.
Qed.

Lemma New_slices (p : Process) (opts : list RouterOption) :
  heap (New p opts) = [] ∧ v_middlewares (New p opts) = emptySlice
  ∧ middlewares (self (New p opts)) = emptySlice ∧ groups (New p opts) = [].
Proof.
  unfold New, parseOptions.
  match goal with |- context [fold_left applyOption opts ?x] => set (v0 := x) end.
  destruct (applyOptions_slices opts v0) as (Hh & Hm & Hs & Hg).
  set (v1 := fold_left applyOption opts v0) in *.
  destruct (negb (isEmpty (host v1))); cbn [set_tree scheme host tree];
    destruct (negb (isEmpty (scheme v1))); cbn; rewrite ?Hh, ?Hm, ?Hs, ?Hg; now repeat split.
Qed.

Lemma wf_New (p : Process) (opts : list RouterOption) : wf [] (New p opts).
Proof.
  destruct (New_slices p opts) as (Hh & Hm & Hs & Hg).
  unfold wf, appenders. rewrite Hh, Hm, Hs, Hg. cbn. split.
  - intros [|[|i]] a Hi; cbn in Hi; try discriminate;
      injection Hi as <-; apply valid_emptySlice.
  - intros s Hs'. now apply elem_of_nil in Hs'.
  - intros [|[|i]] j a b Hi; cbn in Hi; try discriminate;
      injection Hi as <-; cbn; lia.
  - intros s i a Hs'. now apply elem_of_nil in Hs'.
Qed.

(** what a snapshot shows is not changed by any later call *)
Lemma snapshot_exec (snaps : list slice) (s : slice) (c : Cmd) (v : State) :
  wf snaps v → s ∈ snaps → elems (heap (exec v c)) s = elems (heap v) s.
Proof.
  intros Hwf Hs. destruct c as [m|g m|g routers|g method path handler opts|g pfx|g relativePath fs opts|g path root0 opts]; cbn [exec].
  - unfold Prouter_UseMiddleware.
    pose proof (wfH_append_snapshot (heap v) (appenders v) snaps 0 (v_middlewares v) s m
                  Hwf eq_refl Hs) as H.
    destruct (append (heap v) (v_middlewares v) m) as [h a]. exact H.
  - unfold RouterGroup_UseMiddleware.
    destruct (getGroup g v) as [rg|] eqn:Hg; [|reflexivity].
    assert (Hi : appenders v !! appIndex g = Some (middlewares rg))
      by (now rewrite appenders_lookup, Hg).
    pose proof (wfH_append_snapshot (heap v) (appenders v) snaps _ _ s m Hwf Hi Hs) as H.
    destruct (append (heap v) (middlewares rg) m) as [h a].
    destruct g; exact H.
  - destruct (HandlerRouter_same g routers v) as [(-> & _) _]. reflexivity.
  - destruct (HandleRoute_same g method path handler opts v) as [(-> & _) _]. reflexivity.
  - destruct (Group_same g pfx v) as (-> & _). reflexivity.
  - unfold StaticFS, GET.
    destruct (HandleRoute_same g http.MethodGet (Join relativePath "{filepath}")
                (staticHandler relativePath fs) opts v) as [(-> & _) _]. reflexivity.
  - unfold Static, StaticFS, GET.
    destruct (HandleRoute_same g http.MethodGet (Join path "{filepath}")
                (staticHandler path (Dir root0)) opts v) as [(-> & _) _]. reflexivity.
Qed.

Lemma snapshot_run (snaps : list slice) (s : slice) (cs : list Cmd) (v : State) :
  wf snaps v → s ∈ snaps → elems (heap (run cs v)) s = elems (heap v) s.
Proof.
  unfold run. revert v. induction cs as [|c cs IH]; intros v Hwf Hs; cbn; [reflexivity|].
  rewrite IH; [|now apply wf_exec|assumption].
  now apply (snapshot_exec snaps).
Qed.

(** [RouterGroup.UseMiddleware] leaves the global middlewares alone *)
Lemma globals_RouterGroup_UseMiddleware (snaps : list slice) (g : GroupRef)
    (m : list Middleware) (v : State) :
  wf snaps v →
  elems (heap (RouterGroup_UseMiddleware g m v))
        (v_middlewares (RouterGroup_UseMiddleware g m v))
  = elems (heap v) (v_middlewares v).
Proof.
  intros Hwf. unfold RouterGroup_UseMiddleware.
  destruct (getGroup g v) as [rg|] eqn:Hg; [|reflexivity].
  assert (Hi : appenders v !! appIndex g = Some (middlewares rg))
    by (now rewrite appenders_lookup, Hg).
  assert (Hne : appIndex g ≠ 0) by (destruct g; cbn; lia).
  pose proof (wfH_append_other (heap v) (appenders v) snaps _ 0 _ (v_middlewares v) m
                Hwf Hi eq_refl Hne) as H.
  destruct (append (heap v) (middlewares rg) m) as [h a].
  destruct g; exact H.
Qed.

End Registration.

(** ** Routes and the middlewares of their group *)

Section Snapshot.
Context `{G : GoLib} `{T : MuxTemplates} `{B : Builtins}.

Lemma makeHttpHandler_ext (v v' : State) (wr : iRoute) (r : http.Request) (w : World) :
  elems (heap v') (v_middlewares v') = elems (heap v) (v_middlewares v) →
  elems (heap v') (middleware wr) = elems (heap v) (middleware wr) →
  makeHttpHandler v' wr r w = makeHttpHandler v wr r w.
Proof.
  intros Hg Hm. unfold makeHttpHandler, handleSpecifyMiddleware, handleGlobalMiddleware.
  now rewrite Hg, Hm.
Qed.

Lemma HandleRoute_routeFor (g : GroupRef) (rg : RouterGroup) (method path : string)
    (handler : handlerFunc) (opts : list RouteOption) (v : State) :
  getGroup g v = Some rg →
  HandleRoute g method path handler opts v
  = initRouter (routeFor rg method path handler opts) v.
Proof. intros Hg. unfold HandleRoute. now rewrite Hg. Qed.

Lemma wf_routeFor (snaps : list slice) (g : GroupRef) (rg : RouterGroup)
    (method path : string) (handler : handlerFunc) (opts : list RouteOption) (v : State) :
  wf snaps v → getGroup g v = Some rg →
  wf (middleware (routeFor rg method path handler opts) :: snaps) v.
Proof.
  intros Hwf Hg. unfold routeFor. cbn [middleware].
  destruct (root rg); cbn [negb].
  - now apply wfH_snapshot_nil.
  - apply (wfH_snapshot _ _ _ (appIndex g)); [assumption|].
    now rewrite appenders_lookup, Hg.
Qed.

Lemma uses_keep_dispatch (snaps : list slice) (wr : iRoute)
    (uses : list (GroupRef * list Middleware)) (v : State) (r : http.Request) (w : World) :
  wf snaps v → middleware wr ∈ snaps →
  makeHttpHandler (run (map (λ u, CUse u.1 u.2) uses) v) wr r w = makeHttpHandler v wr r w.
Proof.
  unfold run. revert v.
  induction uses as [|[g m] uses IH]; intros v Hwf Hs; cbn [map fold_left]; [reflexivity|].
  rewrite IH; [|now apply wf_exec|assumption].
  cbn [exec fst snd]. apply makeHttpHandler_ext.
  - now apply (globals_RouterGroup_UseMiddleware snaps).
  - now apply (snapshot_exec snaps _ (CUse g m)).
Qed.

(** C5. A route registered on a group carries the middlewares the group had
    at that moment: whatever is called afterwards, the sequence recorded for
    the route is the one of the registration, and middlewares appended to
    groups by [UseMiddleware] after it leave the dispatch of the route as it
    was. *)
Theorem route_middlewares_are_a_snapshot (p : Process) (opts : list RouterOption)
    (before : list Cmd) (g : GroupRef) (rg : RouterGroup) (method path : string)
    (handler : handlerFunc) (ropts : list RouteOption) :
  let v0 := run before (New p opts) in
  let wr := routeFor rg method path handler ropts in
  let v1 := HandleRoute g method path handler ropts v0 in
  getGroup g v0 = Some rg →
  v1 = initRouter wr v0
  ∧ (∀ later : list Cmd,
       elems (heap (run later v1)) (middleware wr)
       = if root rg then [] else elems (heap v0) (middlewares rg))
  ∧ (∀ (uses : list (GroupRef * list Middleware)) (r : http.Request) (w : World),
       makeHttpHandler (run (map (λ u, CUse u.1 u.2) uses) v1) wr r w
       = makeHttpHandler v1 wr r w).
Proof.
  intros v0 wr v1 Hg.
  assert (Hwf0 : wf [] v0) by (apply wf_run, wf_New).
  assert (Hwf1 : wf [middleware wr] v1).
  { eapply wf_sameSlices; [apply HandleRoute_same|].
    now apply (wf_routeFor [] g). }
  assert (Hin : middleware wr ∈ [middleware wr]) by (apply elem_of_cons; now left).
  split; [now apply HandleRoute_routeFor|]. split.
  - intros later. rewrite (snapshot_run [middleware wr]) by assumption.
    destruct (HandleRoute_same g method path handler ropts v0) as [(Hh & _) _].
    fold v1 in Hh. rewrite Hh. subst wr. unfold routeFor. cbn [middleware].
    destruct (root rg); cbn [negb]; [|reflexivity].
    unfold elems. cbn. apply take_0.
  - intros uses r w. now apply (uses_keep_dispatch [middleware wr]).
Qed.

(** ** Requests no route matches *)

Lemma exec_fallbacks (c : Cmd) (v : State) : sameFallbacks v (exec v c).
Proof.
  destruct c as [m|g m|g routers|g method path handler opts|g pfx|g relativePath fs opts
                |g path root0 opts]; cbn [exec].
  - unfold Prouter_UseMiddleware. destruct (append _ _ _). now split.
  - unfold RouterGroup_UseMiddleware. destruct (getGroup g v); [|apply sameFallbacks_refl].
    destruct (append _ _ _). destruct g; now split.
  - apply HandlerRouter_same.
  - apply HandleRoute_same.
  - apply Group_same.
  - apply HandleRoute_same.
  - apply HandleRoute_same.
Qed.

Lemma run_fallbacks (cs : list Cmd) (v : State) : sameFallbacks v (run cs v).
Proof.
  unfold run. revert v. induction cs as [|c cs IH]; intros v; cbn; [apply sameFallbacks_refl|].
  eapply sameFallbacks_trans; [apply exec_fallbacks | apply IH].
Qed.

(** C7. On a router made by [NewProuter], a request for which the search
    through the routes finds no route, whether nothing matched or only the
    method did not, is answered by the fixed 404 envelope and by nothing
    else; no handler or middleware runs. *)
Theorem lookup_failure_is_not_found (p : Process) (opts : list RouterOption)
    (cs : list Cmd) (r : http.Request) (w : World) :
  let v := run cs (NewProuter p opts) in
  cleanPath (url.Path (http.URL r)) = url.Path (http.URL r) →
  (∀ h vars, mux.search (tree v) r ≠ mux.Hit h vars) →
  ServeHTTP v r w
  = Done (send (WJSON 404 {| Code := 404; Message := "page not found"; Data := anyNil |}) w).
Proof.
  intros v Hclean Hmiss.
  destruct (run_fallbacks cs (NewProuter p opts)) as [Hnf Hmna]. fold v in Hnf, Hmna.
  unfold NewProuter in Hnf, Hmna. cbn in Hnf, Hmna.
  unfold ServeHTTP, mux.decide, mux.Match.
  rewrite Hclean, String.eqb_refl, Hnf, Hmna. cbn [negb].
  destruct (mux.search (tree v) r) as [h vars| |] eqn:Hs.
  - exfalso. exact (Hmiss h vars eq_refl).
  - reflexivity.
  - reflexivity.
Qed.

End Snapshot.

(** ** Two routes with the same method and pattern *)

Section FirstMatch.
Context `{T : MuxTemplates} {H : Type}.

Lemma firstVerdict_app (vs1 vs2 : list (mux.Verdict H)) :
  mux.firstVerdict (vs1 ++ vs2)
  = match mux.firstVerdict vs1 with
    | mux.Hit h vars => mux.Hit h vars
    | mux.MethodMismatch =>
        match mux.firstVerdict vs2 with
        | mux.Miss => mux.MethodMismatch
        | x => x
        end
    | mux.Miss => mux.firstVerdict vs2
    end.
Proof.
  induction vs1 as [|x vs1 IH]; cbn.
  - now destruct (mux.firstVerdict vs2).
  - destruct x; [reflexivity| |assumption].
    rewrite IH. destruct (mux.firstVerdict vs1); [reflexivity| |];
      now destruct (mux.firstVerdict vs2).
Qed.

(** the later of two routes that answer alike never decides the search *)
Lemma firstVerdict_shadowed (vs : list (mux.Verdict H)) (x1 x2 : mux.Verdict H) :
  shadowed x1 x2 → mux.firstVerdict ((vs ++ [x1]) ++ [x2]) = mux.firstVerdict (vs ++ [x1]).
Proof.
  intros Hsh. rewrite (firstVerdict_app (vs ++ [x1]) [x2]), (firstVerdict_app vs [x1]).
  destruct (mux.firstVerdict vs); [reflexivity| |];
    destruct x1, x2; cbn in *; try reflexivity; contradiction.
Qed.

Lemma leaf_shadowed (req : http.Request) (r : mux.Route) (h1 h2 : H) :
  shadowed (mux.matchNode req (mux.Leaf r h1)) (mux.matchNode req (mux.Leaf r h2)).
Proof. cbn. now destruct (mux.matchRoute r req). Qed.

Lemma search_shadowed (req : http.Request) (n1 n2 : mux.Node H) (p : mux.Ref) :
  shadowed (mux.matchNode req n1) (mux.matchNode req n2) →
  ∀ rs : list (mux.Node H),
    mux.firstVerdict (map (mux.matchNode req) (mux.addAt p n2 (mux.addAt p n1 rs)))
    = mux.firstVerdict (map (mux.matchNode req) (mux.addAt p n1 rs)).
Proof.
  intros Hsh. induction p as [|i p IH]; intros rs.
  - cbn [mux.addAt]. rewrite !map_app. cbn [map].
    now apply firstVerdict_shadowed.
  - cbn [mux.addAt].
    destruct (rs !! i) as [[r h|c rs' nf mna]|] eqn:Hi.
    + now rewrite Hi.
    + assert (Hlt : i < length rs) by (apply lookup_lt_is_Some; eauto).
      rewrite list_lookup_insert_eq by assumption.
      rewrite list_insert_insert_eq.
      f_equal. rewrite !list_fmap_insert. f_equal.
      cbn [mux.matchNode]. now rewrite IH.
    + now rewrite Hi.
Qed.

Lemma routesAt_addAt (p : mux.Ref) (n : mux.Node H) (rs rs' : list (mux.Node H))
    (c : mux.Route) :
  mux.routesAt p rs = Some (c, rs') →
  mux.routesAt p (mux.addAt p n rs) = Some (c, rs' ++ [n]).
Proof.
  revert rs. induction p as [|i p IH]; intros rs; cbn [mux.routesAt mux.addAt];
    [discriminate|].
  destruct (rs !! i) as [[r h|c0 rs0 nf mna]|] eqn:Hi; try discriminate.
  assert (Hlt : i < length rs) by (apply lookup_lt_is_Some; eauto).
  rewrite list_lookup_insert_eq by assumption.
  destruct p as [|j p].
  - intros [= <- <-]. reflexivity.
  - intros Hr. rewrite (IH rs0 Hr). reflexivity.
Qed.

Lemma lookupRouter_addRoute (p : mux.Ref) (n : mux.Node H) (R : mux.Router H)
    (c : mux.Route) (rs : list (mux.Node H)) :
  mux.lookupRouter p R = Some (c, rs) →
  ∃ rs', mux.lookupRouter p (mux.addRoute p n R) = Some (c, rs').
Proof.
  destruct p as [|i p]; cbn [mux.lookupRouter].
  - intros [= <- <-]. now eexists.
  - intros Hr. eexists. unfold mux.addRoute. cbn [mux.routes mux.setRoutes].
    exact (routesAt_addAt (i :: p) n _ _ _ Hr).
Qed.

End FirstMatch.

Section Duplicates.
Context `{G : GoLib} `{T : MuxTemplates} `{B : Builtins}.

Lemma runHandler_ext (v v' : State) (h : httpHandler) (r : http.Request) (w : World) :
  heap v' = heap v → v_middlewares v' = v_middlewares v →
  runHandler v' h r w = runHandler v h r w.
Proof.
  intros Hh Hm. destruct h; cbn; [|reflexivity|reflexivity].
  apply makeHttpHandler_ext; now rewrite ?Hh, ?Hm.
Qed.

Lemma initRouter_found (r : iRoute) (v : State) (conf : mux.Route)
    (rs : list (mux.Node httpHandler)) :
  mux.lookupRouter (irouter r) (tree v) = Some (conf, rs) →
  initRouter r v
  = set_proc (debugPrintRoute (Method (route r)) (routeBuilt conf r) (Handler (route r))
                (proc v))
      (set_tree (mux.addRoute (irouter r) (mux.Leaf (routeBuilt conf r) (RouteHandler r))
                   (tree v)) v).
Proof. intros Hl. unfold initRouter. now rewrite Hl. Qed.

Lemma initRouter_missing (r : iRoute) (v : State) :
  mux.lookupRouter (irouter r) (tree v) = None → initRouter r v = v.
Proof. intros Hl. unfold initRouter. now rewrite Hl. Qed.

(** C6, as amended. Routes are tried in the order of their registration, so
    a second registration on the same group with the same method, pattern
    and options changes nothing: every request is answered as it was after
    the first registration alone. A request for that method and pattern
    resolves to one handler, the one registered first, never to the later
    one. *)
Theorem duplicate_registration_is_shadowed (g : GroupRef) (method path : string)
    (h1 h2 : handlerFunc) (opts : list RouteOption) (v : State)
    (r : http.Request) (w : World) :
  ServeHTTP (HandleRoute g method path h2 opts (HandleRoute g method path h1 opts v)) r w
  = ServeHTTP (HandleRoute g method path h1 opts v) r w.
Proof.
  destruct (getGroup g v) as [rg|] eqn:Hg.
  2:{ unfold HandleRoute at 2 3. rewrite Hg. unfold HandleRoute. now rewrite Hg. }
  set (v1 := HandleRoute g method path h1 opts v).
  assert (Hg1 : getGroup g v1 = Some rg).
  { destruct (HandleRoute_same g method path h1 opts v) as [(_ & _ & Hs & Hgs) _].
    fold v1 in Hs, Hgs. destruct g; cbn in *; congruence. }
  rewrite (HandleRoute_routeFor g rg) by assumption.
  assert (Hv1 : v1 = initRouter (routeFor rg method path h1 opts) v)
    by now apply HandleRoute_routeFor.
  set (wr1 := routeFor rg method path h1 opts) in *.
  set (wr2 := routeFor rg method path h2 opts).
  destruct (mux.lookupRouter (irouter wr1) (tree v)) as [[conf rs]|] eqn:Hl.
  2:{ rewrite (initRouter_missing wr1 v Hl) in Hv1. rewrite Hv1.
      now rewrite (initRouter_missing wr2 v Hl). }
  rewrite (initRouter_found wr1 v conf rs Hl) in Hv1.
  set (n1 := mux.Leaf (routeBuilt conf wr1) (RouteHandler wr1)) in *.
  destruct (lookupRouter_addRoute (router rg) n1 (tree v) conf rs Hl) as [rs' Hl'].
  assert (Hl1 : mux.lookupRouter (irouter wr2) (tree v1) = Some (conf, rs'))
    by (rewrite Hv1; exact Hl').
  rewrite (initRouter_found wr2 v1 conf rs' Hl1).
  set (n2 := mux.Leaf (routeBuilt conf wr2) (RouteHandler wr2)).
  unfold ServeHTTP, mux.decide, mux.Match, mux.search.
  cbn [tree set_proc set_tree].
  assert (Ht : tree v1 = mux.addRoute (router rg) n1 (tree v)) by (now rewrite Hv1).
  rewrite Ht.
  cbn [irouter wr2 routeFor mux.addRoute mux.setRoutes mux.routes mux.NotFoundHandler
       mux.MethodNotAllowedHandler].
  rewrite (search_shadowed r n1 n2 (router rg) (leaf_shadowed r _ _ _)).
  destruct (negb _); [reflexivity|].
  destruct (mux.fallback _ _ _) as [h vars| |]; [|reflexivity|reflexivity].
  now apply runHandler_ext.
Qed.

End Duplicates.

(** * The properties on concrete programs *)


(** C1 as stated fails: with A, B global and C, D on the group, the route's
    middlewares are entered first and the global ones sit next to the handler. *)
Lemma global_middlewares_are_innermost :
  Demo.stdoutOf (Demo.serve Demo.ordered "GET" "/g/x")
  = ["enter C"; "enter D"; "enter A"; "enter B"; "handler";
     "exit B"; "exit A"; "exit D"; "exit C"]
  ∧ Demo.stdoutOf (Demo.serve Demo.ordered "GET" "/g/x")
    ≠ ["enter A"; "enter B"; "enter C"; "enter D"; "handler";
       "exit D"; "exit C"; "exit B"; "exit A"].
Proof. split; [vm_compute; reflexivity | vm_compute; discriminate]. Qed.

Lemma middleware_order_witness :
  let wr := routeFor Demo.orderedGroup "GET" "/x" (traceHandler None None) [] in
  elems (heap Demo.ordered) (v_middlewares Demo.ordered) = map traceMiddleware ["A"; "B"]
  ∧ elems (heap Demo.ordered) (middleware wr) = map traceMiddleware ["C"; "D"]
  ∧ Handler (route wr) = traceHandler None None
  ∧ ∃ w', makeHttpHandler (G := Demo.lib) Demo.ordered wr
            (Demo.request "GET" "/g/x" "10.0.0.1:4000") Demo.world = Done w'
          ∧ stdout w' = ["enter C"; "enter D"; "enter A"; "enter B"; "handler";
                         "exit B"; "exit A"; "exit D"; "exit C"].
Proof.
  intros wr. split; [reflexivity|]. split; [reflexivity|]. split; [reflexivity|].
  apply (middleware_order (G := Demo.lib) Demo.ordered wr
           ["A"; "B"] ["C"; "D"] None None);
    reflexivity.
Defined.


Example static_file_is_followed_by_an_envelope :
  Demo.wireOf (Demo.serve Demo.mounted "GET" "/assets/x.png")
  = [WRaw 200 "PNG"; WJSON 200 {| Code := 200; Message := EmptyString; Data := anyNil |}].
Proof. vm_compute. reflexivity. Qed.


Lemma clientIP_spec_witness :
  ParseIP (GoLib := Demo.lib) EmptyString = None
  ∧ ctx.ClientIp (newContext (G := Demo.lib) (Demo.request "GET" "/" "nonsense") Demo.world)
    = EmptyString
  ∧ ctx.ClientIp (newContext (G := Demo.lib) (Demo.request "GET" "/" "localhost:80") Demo.world)
    = EmptyString
  ∧ ctx.ClientIp (newContext (G := Demo.lib) (Demo.request "GET" "/" " 10.0.0.1:4000 ") Demo.world)
    = "10.0.0.1".
Proof.
  split; [reflexivity|]. split; [|split].
  - exact (clientIP_spec (G := Demo.lib) (Demo.request "GET" "/" "nonsense") Demo.world eq_refl).
  - exact (clientIP_spec (G := Demo.lib) (Demo.request "GET" "/" "localhost:80") Demo.world eq_refl).
  - exact (clientIP_spec (G := Demo.lib) (Demo.request "GET" "/" " 10.0.0.1:4000 ") Demo.world
             eq_refl).
Defined.

Lemma route_middlewares_are_a_snapshot_witness :
  getGroup (Child 0) (Demo.setup Demo.grown) = Some Demo.grownGroup
  ∧ (∀ later : list Cmd,
       elems (heap (run (G := Demo.lib) later
                      (HandleRoute (Child 0) "GET" "/x" (traceHandler None None) []
                         (Demo.setup Demo.grown))))
             (middlewares Demo.grownGroup)
       = map traceMiddleware ["C"; "D"; "E"]).
Proof.
  split; [reflexivity|].
  intros later.
  destruct (route_middlewares_are_a_snapshot (G := Demo.lib) startup []
              Demo.grown (Child 0) Demo.grownGroup "GET" "/x" (traceHandler None None) []
              eq_refl) as (_ & Hsnap & _).
  exact (Hsnap later).
Defined.

(** the append after the registration writes into the array the route shares,
    and the route still runs C, D, E only *)
Example later_middleware_is_not_run :
  let v := Demo.setup (Demo.grown
                       ++ [CHandleRoute (Child 0) "GET" "/x" (traceHandler None None) [];
                           CUse (Child 0) [traceMiddleware "F"]]) in
  length <$> heap v !! 2 = Some 4
  ∧ Demo.stdoutOf (Demo.serve v "GET" "/g/x")
    = ["enter C"; "enter D"; "enter E"; "handler"; "exit E"; "exit D"; "exit C"].
Proof. split; vm_compute; reflexivity. Qed.

(** the global list is read when the request arrives: a middleware put on
    the [Prouter] itself after the registration does run *)
Example later_global_middleware_is_run :
  let v := Demo.setup [CHandleRoute Self "GET" "/x" (traceHandler None None) [];
                       CProuterUse [traceMiddleware "G"]] in
  Demo.stdoutOf (Demo.serve v "GET" "/x") = ["enter G"; "handler"; "exit G"].
Proof. vm_compute. reflexivity. Qed.

(** C6 as stated fails: of two registrations of GET /dup the first answers. *)
Lemma first_registration_wins :
  Demo.wireOf (Demo.serve Demo.duplicated "GET" "/dup")
  = [WJSON 201 {| Code := 201; Message := EmptyString; Data := anyString "first" |}]
  ∧ Demo.wireOf (Demo.serve Demo.duplicated "GET" "/dup")
    ≠ [WJSON 202 {| Code := 202; Message := EmptyString; Data := anyString "second" |}].
Proof. split; [vm_compute; reflexivity | vm_compute; discriminate]. Qed.

Lemma lookup_failure_is_not_found_witness :
  cleanPath (MuxTemplates := Demo.templates) "/nothing" = "/nothing"
  ∧ (∀ h vars,
       mux.search (T := Demo.templates) (tree Demo.mounted)
         (Demo.request "GET" "/nothing" "10.0.0.1:4000") ≠ mux.Hit h vars)
  ∧ Demo.serve Demo.mounted "GET" "/nothing"
    = Done (send (WJSON 404 {| Code := 404; Message := "page not found"; Data := anyNil |})
              Demo.world).
Proof.
  assert (Hmiss : ∀ h vars,
            mux.search (T := Demo.templates) (tree Demo.mounted)
              (Demo.request "GET" "/nothing" "10.0.0.1:4000") ≠ mux.Hit h vars)
    by (intros h vars; vm_compute; discriminate).
  split; [reflexivity|]. split; [exact Hmiss|].
  exact (lookup_failure_is_not_found (G := Demo.lib) (T := Demo.templates) (B := Demo.builtins)
           startup [] [CStatic Self "/assets" "./content" []]
           (Demo.request "GET" "/nothing" "10.0.0.1:4000") Demo.world eq_refl Hmiss).
Defined.

Example wrong_method_is_not_found :
  Demo.wireOf (Demo.serve Demo.mounted "POST" "/assets/x.png")
  = [WJSON 404 {| Code := 404; Message := "page not found"; Data := anyNil |}].
Proof. vm_compute. reflexivity. Qed.

(** * Further properties *)

(** ** Errors are never reported as success *)

Section ErrorEnvelope.
Context `{G : GoLib}.

(** X1. When the handler chain of a route returns an error, the dispatch
    core writes one envelope after whatever the chain wrote; its code, which
    is also the transport status, is neither 0 nor 200, and its message is
    empty only if the text of the error is. *)
Theorem error_is_never_success (v : State) (wr : iRoute) (r : http.Request) (w w' : World)
    (resp : Response) (e : string) :
  Handle (handleSpecifyMiddleware (heap v) wr (handleGlobalMiddleware v (Handler (route wr))))
    (newContext r w) w = Returned resp (Some e) w' →
  ∃ body,
    makeHttpHandler v wr r w = Done (send (WJSON (Code body) body) w')
    ∧ Code body ≠ 0%Z ∧ Code body ≠ 200%Z
    ∧ (Message body = EmptyString → e = EmptyString).
Proof.
  intros Hh. unfold makeHttpHandler. rewrite Hh.
  exists (snd (packResponseTmpl resp (Some e))).
  split; [reflexivity|].
  destruct resp as [ret|]; cbn.
  - unfold GetCode, GetMessage.
    destruct (Z.eqb_spec (Code ret) 0) as [E0|N0]; cbn;
      [|destruct (Z.eqb_spec (Code ret) 200) as [E2|N2]; cbn].
    all: repeat split; try discriminate; try assumption.
    all: destruct (isEmpty (Message ret)) eqn:Hm; [tauto|];
      intros Hz; rewrite Hz in Hm; discriminate.
  - repeat split; try discriminate. tauto.
Qed.
End ErrorEnvelope.

Lemma error_is_never_success_witness :
  let v := Demo.setup [CHandleRoute Self "GET" "/x"
                         (traceHandler (Some {| Code := 200; Message := EmptyString;
                                                Data := anyNil |}) (Some "boom")) []] in
  let wr := routeFor (self v) "GET" "/x"
              (traceHandler (Some {| Code := 200; Message := EmptyString; Data := anyNil |})
                 (Some "boom")) [] in
  ∃ body,
    makeHttpHandler (G := Demo.lib) v wr (Demo.request "GET" "/x" "10.0.0.1:4000") Demo.world
    = Done (send (WJSON (Code body) body) (println "handler" Demo.world))
    ∧ Code body ≠ 0%Z ∧ Code body ≠ 200%Z
    ∧ (Message body = EmptyString → "boom" = EmptyString).
Proof.
  intros v wr.
  exact (error_is_never_success (G := Demo.lib) v wr
           (Demo.request "GET" "/x" "10.0.0.1:4000") Demo.world (println "handler" Demo.world)
           (Some {| Code := 200; Message := EmptyString; Data := anyNil |}) "boom" eq_refl).
Defined.

(** ** Handler names *)

Lemma splitByte_not_nil (sep : ascii) (s : string) : splitByte sep s ≠ [].
Proof.
  destruct s as [|c s]; cbn; [discriminate|].
  destruct (Ascii.eqb c sep); [discriminate|].
  now destruct (splitByte sep s).
Qed.

Lemma splitByte_pieces (sep : ascii) (s : string) :
  Forall (λ x, hasByte sep x = false) (splitByte sep s).
Proof.
  induction s as [|c s IH]; cbn.
  - now repeat constructor.
  - destruct (Ascii.eqb c sep) eqn:Hc.
    + now constructor.
    + destruct (splitByte sep s) as [|x xs].
      * repeat constructor. cbn. now rewrite Hc.
      * inversion IH as [|? ? Hx Hxs]; subst. constructor; [|assumption].
        cbn. now rewrite Hc, Hx.
Qed.

(** [Join (Split s sep) sep] is [s] *)
Lemma joinByte_splitByte (sep : ascii) (s : string) : joinByte sep (splitByte sep s) = s.
Proof.
  induction s as [|c s IH]; [reflexivity|].
  cbn [splitByte]. destruct (Ascii.eqb_spec c sep) as [->|Hne].
  - cbn [joinByte]. pose proof (splitByte_not_nil sep s) as Hn.
    destruct (splitByte sep s) as [|x xs]; [contradiction|].
    cbn [String.append]. now rewrite IH.
  - pose proof (splitByte_not_nil sep s) as Hn.
    destruct (splitByte sep s) as [|x xs]; [contradiction|].
    destruct xs as [|y ys].
    + change (String c (joinByte sep [x]) = String c s). now rewrite IH.
    + change (String c (joinByte sep (x :: y :: ys)) = String c s). now rewrite IH.
Qed.

Lemma append_associative (a b c : string) : (a +:+ b) +:+ c = a +:+ (b +:+ c).
Proof.
  induction a as [|x a IH]; [reflexivity|].
  change (String x ((a +:+ b) +:+ c) = String x (a +:+ (b +:+ c))). now rewrite IH.
Qed.

Lemma joinByte_last (sep : ascii) (l : list string) (x : string) :
  last l = Some x →
  ∃ pre, joinByte sep l = pre +:+ x
         ∧ (pre = EmptyString ∨ ∃ q, pre = q +:+ String sep EmptyString).
Proof.
  induction l as [|y l IH]; [discriminate|].
  destruct l as [|z l].
  - intros [= ->]. exists EmptyString. split; [reflexivity | now left].
  - rewrite last_cons_cons. intros Hl. destruct (IH Hl) as (pre & Hj & Hpre).
    exists (y +:+ String sep pre). split.
    + change (y +:+ String sep (joinByte sep (z :: l)) = (y +:+ String sep pre) +:+ x).
      rewrite Hj. now rewrite append_associative.
    + right. destruct Hpre as [->|[q ->]].
      * exists y. reflexivity.
      * exists (y +:+ String sep q). now rewrite append_associative.
Qed.

(** X2. [handelrName] never panics: the name it returns is the part of the
    function name after the last dot, the whole name when there is no dot,
    and contains no dot itself. *)
Theorem handelrName_spec (GetFuncName : handlerFunc → string) (handler : handlerFunc) :
  ∃ name pre,
    handelrName GetFuncName handler = Ok name
    ∧ GetFuncName handler = pre +:+ name
    ∧ hasByte "."%char name = false
    ∧ (pre = EmptyString ∨ ∃ q, pre = q +:+ ".").
Proof.
  unfold handelrName. set (s := GetFuncName handler).
  pose proof (splitByte_not_nil "."%char s) as Hn.
  pose proof (splitByte_pieces "."%char s) as Hp.
  pose proof (joinByte_splitByte "."%char s) as Hj.
  destruct (last (splitByte "." s)) as [name|] eqn:Hl.
  - destruct (joinByte_last "."%char _ _ Hl) as (pre & Hjoin & Hpre).
    exists name, pre. split; [reflexivity|]. split; [congruence|]. split; [|exact Hpre].
    apply last_Some_elem_of in Hl.
    exact (proj1 (Forall_forall _ _) Hp name Hl).
  - apply last_None in Hl. contradiction.
Qed.

Example handelrName_qualified :
  handelrName Name (traceHandler None None) = Ok "handler"
  ∧ handelrName (λ _, "github.com/go-puzzles/prouter/example.helloHandler")
      (traceHandler None None) = Ok "helloHandler".
Proof. split; reflexivity. Qed.

(** ** The static handler and the mount prefix *)

Lemma prefix_length (p s : string) :
  String.prefix p s = true → String.length p ≤ String.length s.
Proof.
  revert s. induction p as [|a p IH]; intros [|b s]; cbn; try lia; try discriminate.
  destruct (ascii_dec a b); [|discriminate].
  intros Hp. specialize (IH s Hp). lia.
Qed.

Lemma length_dropString (n : nat) (s : string) :
  n ≤ String.length s → String.length (dropString n s) = String.length s - n.
Proof.
  revert s. induction n as [|n IH]; intros s Hn; cbn.
  - destruct s; cbn; lia.
  - destruct s as [|c s]; cbn in *; [lia|]. apply IH. lia.
Qed.

(** a prefix taken off and put back *)
Lemma prefix_dropString (p s : string) :
  String.prefix p s = true → p +:+ dropString (String.length p) s = s.
Proof.
  revert s. induction p as [|a p IH]; intros [|b s]; cbn; try reflexivity; try discriminate.
  destruct (ascii_dec a b) as [->|]; [|discriminate].
  intros Hp. change (String b (p +:+ dropString (String.length p) s) = String b s).
  now rewrite IH.
Qed.

Lemma TrimPrefix_shorter (s p : string) :
  (String.length (TrimPrefix s p) <? String.length s)
  = negb (isEmpty p) && String.prefix p s.
Proof.
  unfold TrimPrefix. destruct (String.prefix p s) eqn:Hp.
  - pose proof (prefix_length p s Hp) as Hl.
    rewrite length_dropString by assumption.
    destruct p as [|a p]; cbn [isEmpty negb andb String.length] in *.
    + rewrite Nat.sub_0_r. apply Nat.ltb_irrefl.
    + apply Nat.ltb_lt. lia.
  - rewrite Nat.ltb_irrefl. now rewrite andb_false_r.
Qed.

Lemma underPrefix_mountCovers (prefix : string) (u : url.URL) :
  underPrefix prefix u = mountCovers prefix u.
Proof.
  unfold underPrefix, mountCovers. rewrite !TrimPrefix_shorter.
  destruct (isEmpty prefix), (String.prefix prefix (url.Path u)),
    (isEmpty (url.RawPath u)), (String.prefix prefix (url.RawPath u)); reflexivity.
Qed.

Section StaticMount.
Context `{G : GoLib}.

(** X3. The static handler calls the file server exactly when the mount
    prefix is not empty and starts the request path (and the raw path, when
    the request has one); the file server then sees the path with the prefix
    taken off, so that prefix and seen path together are the request path.
    In every other case, an empty prefix included, the handler gives the 404
    result and writes nothing. *)
Theorem static_mount_prefix (prefix : string) (fs : http.FileSystem)
    (c : ctx.Context) (w : World) :
  let r := ctx.Request c in
  Handle (staticHandler prefix fs) c w
  = (if mountCovers prefix (http.URL r)
     then Returned None None (FileServer fs (stripped prefix r) w)
     else Returned (Some (ErrorResponse 404 "page not found")) (Some "page not found") w)
  ∧ (if mountCovers prefix (http.URL r)
     then prefix +:+ url.Path (http.URL (stripped prefix r)) = url.Path (http.URL r)
     else True).
Proof.
  cbn zeta. split.
  - rewrite <- underPrefix_mountCovers. cbn. unfold underPrefix.
    now destruct (_ && _).
  - destruct (mountCovers _ _) eqn:Hc; [|exact I].
    unfold mountCovers in Hc. apply andb_prop in Hc as [Hc _].
    apply andb_prop in Hc as [_ Hp].
    cbn. unfold TrimPrefix. rewrite Hp. now apply prefix_dropString.
Qed.

Example static_mount_empty_prefix (fs : http.FileSystem) (w : World) :
  Handle (staticHandler EmptyString fs)
    (newContext (Demo.request "GET" "/x.png" "10.0.0.1:4000") w) w
  = Returned (Some (ErrorResponse 404 "page not found")) (Some "page not found") w.
Proof. reflexivity. Qed.

(** X4. A request dispatched to a static route that has no middlewares
    around it: under the mount prefix the client gets what the file server
    writes, followed by an envelope of code 200 with no message and no
    data; outside the prefix it gets the 404 envelope alone. *)
Theorem static_route_dispatch (v : State) (wr : iRoute) (prefix : string)
    (fs : http.FileSystem) (r : http.Request) (w : World) :
  Handler (route wr) = staticHandler prefix fs →
  elems (heap v) (v_middlewares v) = [] →
  elems (heap v) (middleware wr) = [] →
  makeHttpHandler v wr r w
  = Done (if mountCovers prefix (http.URL r)
          then send (WJSON 200 {| Code := 200; Message := EmptyString; Data := anyNil |})
                 (FileServer fs (stripped prefix r) w)
          else send (WJSON 404 {| Code := 404; Message := "page not found"; Data := anyNil |})
                 w).
Proof.
  intros Hh Hg Hm. unfold makeHttpHandler.
  rewrite effective_handler, Hg, Hm, Hh. cbn [app foldr].
  rewrite <- underPrefix_mountCovers.
  cbn. unfold underPrefix. now destruct (_ && _).
Qed.
End StaticMount.

Lemma static_route_dispatch_witness :
  let v := Demo.setup [CStatic Self "/assets" "./content" []] in
  let wr := routeFor (self v) "GET" "/assets/{filepath}" (staticHandler "/assets" Demo.files) [] in
  Handler (route wr) = staticHandler "/assets" Demo.files
  ∧ elems (heap v) (v_middlewares v) = []
  ∧ elems (heap v) (middleware wr) = []
  ∧ makeHttpHandler (G := Demo.lib) v wr (Demo.request "GET" "/assets/x.png" "10.0.0.1:4000")
      Demo.world
    = Done {| wire := [WRaw 200 "PNG";
                       WJSON 200 {| Code := 200; Message := EmptyString; Data := anyNil |}];
              stdout := []; clock := 0 |}.
Proof.
  intros v wr. split; [reflexivity|]. split; [reflexivity|]. split; [reflexivity|].
  exact (static_route_dispatch (G := Demo.lib) v wr "/assets" Demo.files
           (Demo.request "GET" "/assets/x.png" "10.0.0.1:4000") Demo.world
           eq_refl eq_refl eq_refl).
Defined.

(** ** Options and the fallback handlers *)

Lemma applyOptions_notFound (opts : list RouterOption) (v : State) :
  mux.NotFoundHandler (tree (fold_left applyOption opts v))
  = fold_left (fun h o => match o with WithNotFoundHandler x => Some x | _ => h end) opts
      (mux.NotFoundHandler (tree v)).
Proof.
  revert v. induction opts as [|o opts IH]; intros v; cbn; [reflexivity|].
  rewrite IH. now destruct o.
Qed.

Lemma applyOptions_methodNotAllowed (opts : list RouterOption) (v : State) :
  mux.MethodNotAllowedHandler (tree (fold_left applyOption opts v))
  = fold_left (fun h o => match o with WithMethodNotAllowedHandler x => Some x | _ => h end)
      opts (mux.MethodNotAllowedHandler (tree v)).
Proof.
  revert v. induction opts as [|o opts IH]; intros v; cbn; [reflexivity|].
  rewrite IH. now destruct o.
Qed.

(** X5. The handlers given by [WithNotFoundHandler] and
    [WithMethodNotAllowedHandler] are on the router that [New] returns only
    when neither a host nor a scheme is configured, and then the last one
    given counts; with a host or a scheme the router that serves has no
    fallback handler at all, whatever the options said. *)
Theorem New_fallback_handlers (p : Process) (opts : list RouterOption) :
  let plain := isEmpty (optionHost opts) && isEmpty (optionScheme opts) in
  mux.NotFoundHandler (ServeHandler (New p opts))
  = (if plain then optionNotFound opts else None)
  ∧ mux.MethodNotAllowedHandler (ServeHandler (New p opts))
    = (if plain then optionMethodNotAllowed opts else None).
Proof.
  cbn zeta. unfold ServeHandler, New, parseOptions, optionNotFound, optionMethodNotAllowed.
  set (v0 := {| proc := p |}).
  set (v1 := fold_left applyOption opts v0).
  assert (Hhost : optionHost opts = host v1)
    by (symmetry; exact (applyOptions_host opts v0)).
  assert (Hscheme : optionScheme opts = scheme v1)
    by (symmetry; exact (applyOptions_scheme opts v0)).
  rewrite Hhost, Hscheme.
  pose proof (applyOptions_notFound opts v0) as Hnf.
  pose proof (applyOptions_methodNotAllowed opts v0) as Hmna.
  fold v1 in Hnf, Hmna. cbn in Hnf, Hmna.
  destruct (isEmpty (host v1)); cbn [negb set_tree scheme host tree andb];
    destruct (isEmpty (scheme v1)); cbn [negb]; split; try reflexivity; assumption.
Qed.

Example New_host_drops_not_found_handler :
  mux.NotFoundHandler (tree (New startup [WithNotFoundHandler NotFoundJSON; WithHost "a.example"]))
  = None.
Proof. reflexivity. Qed.

(** ** What every call of the registration surface keeps *)

Section Preservation.
Context `{G : GoLib}.

Lemma HandlerRouter_preserves (P : State → Prop) (g : GroupRef)
    (routers : list (list Route)) (v : State) :
  (∀ r v, P v → P (initRouter r v)) → P v → P (HandlerRouter g routers v).
Proof.
  intros Hinit. unfold HandlerRouter. revert v.
  induction routers as [|routes routers IH]; intros v Hv; cbn [fold_left]; [assumption|].
  apply IH. clear IH. revert v Hv.
  induction routes as [|r routes IHr]; intros v Hv; cbn [fold_left]; [assumption|].
  apply IHr. destruct (getGroup g v); [now apply Hinit | assumption].
Qed.

Lemma exec_preserves (P : State → Prop) (c : Cmd) (v : State) :
  (∀ r v, P v → P (initRouter r v)) →
  (∀ m v, P v → P (Prouter_UseMiddleware m v)) →
  (∀ g m v, P v → P (RouterGroup_UseMiddleware g m v)) →
  (∀ g pfx v, P v → P (Group g pfx v).2) →
  P v → P (exec v c).
Proof.
  intros Hinit Hp Hg Hgroup Hv.
  assert (Hroute : ∀ g method path handler opts v,
             P v → P (HandleRoute g method path handler opts v)).
  { intros g method path handler opts v0 Hv0. unfold HandleRoute.
    destruct (getGroup g v0); [now apply Hinit | assumption]. }
  destruct c as [m|g m|g routers|g method path handler opts|g pfx|g relativePath fs opts
                |g path root0 opts]; cbn [exec].
  - now apply Hp.
  - now apply Hg.
  - now apply HandlerRouter_preserves.
  - now apply Hroute.
  - now apply Hgroup.
  - now apply Hroute.
  - now apply Hroute.
Qed.

Lemma run_preserves (P : State → Prop) (cs : list Cmd) (v : State) :
  (∀ r v, P v → P (initRouter r v)) →
  (∀ m v, P v → P (Prouter_UseMiddleware m v)) →
  (∀ g m v, P v → P (RouterGroup_UseMiddleware g m v)) →
  (∀ g pfx v, P v → P (Group g pfx v).2) →
  P v → P (run cs v).
Proof.
  intros Hinit Hp Hg Hgroup. unfold run. revert v.
  induction cs as [|c cs IH]; intros v Hv; cbn; [assumption|].
  apply IH. now apply exec_preserves.
Qed.

(** *** Group handles stay valid *)

Lemma routesAt_addAt_other {H : Type} (q p : mux.Ref) (n : mux.Node H)
    (rs x : list (mux.Node H)) (c : mux.Route) :
  mux.routesAt q rs = Some (c, x) → ∃ x', mux.routesAt q (mux.addAt p n rs) = Some (c, x').
Proof.
  revert p rs. induction q as [|i q IH]; intros p rs; [discriminate|].
  cbn [mux.routesAt].
  destruct (rs !! i) as [[r h|c0 rs0 nf mna]|] eqn:Hi; try discriminate.
  intros Hq. destruct p as [|j p]; cbn [mux.addAt].
  - rewrite lookup_app_l by (apply lookup_lt_is_Some; eauto). rewrite Hi. eauto.
  - destruct (rs !! j) as [[r1 h1|c1 rs1 nf1 mna1]|] eqn:Hj;
      try (rewrite Hi; eauto; fail).
    destruct (decide (j = i)) as [->|Hne].
    + rewrite list_lookup_insert_eq by (apply lookup_lt_is_Some; eauto).
      rewrite Hi in Hj. injection Hj as <- <- <- <-.
      destruct q as [|k q].
      * injection Hq as <- <-. eauto.
      * exact (IH p rs0 Hq).
    + rewrite list_lookup_insert_ne by assumption. rewrite Hi. eauto.
Qed.

Lemma lookupRouter_addRoute_other {H : Type} (q p : mux.Ref) (n : mux.Node H)
    (R : mux.Router H) (c : mux.Route) (x : list (mux.Node H)) :
  mux.lookupRouter q R = Some (c, x) →
  ∃ x', mux.lookupRouter q (mux.addRoute p n R) = Some (c, x').
Proof.
  destruct q as [|i q]; cbn [mux.lookupRouter].
  - intros [= <- <-]. eauto.
  - unfold mux.addRoute. cbn [mux.routes mux.setRoutes]. apply routesAt_addAt_other.
Qed.

Lemma lookupRouter_addRoute_here {H : Type} (p : mux.Ref) (n : mux.Node H)
    (R : mux.Router H) (c : mux.Route) (rs : list (mux.Node H)) :
  mux.lookupRouter p R = Some (c, rs) →
  mux.lookupRouter p (mux.addRoute p n R) = Some (c, rs ++ [n]).
Proof.
  destruct p as [|i p]; cbn [mux.lookupRouter].
  - intros [= <- <-]. reflexivity.
  - unfold mux.addRoute. cbn [mux.routes mux.setRoutes]. apply routesAt_addAt.
Qed.

(** the router of a group just made *)
Lemma routesAt_new_group {H : Type} (p : mux.Ref) (c c' : mux.Route)
    (rs rs' : list (mux.Node H)) (nf mna : option H) :
  mux.routesAt p rs = Some (c, rs') →
  mux.routesAt (p ++ [length rs']) (mux.addAt p (mux.Sub c' [] nf mna) rs) = Some (c', []).
Proof.
  revert rs. induction p as [|i p IH]; intros rs; [discriminate|].
  cbn [mux.routesAt mux.addAt app].
  destruct (rs !! i) as [[r h|c0 rs0 nf0 mna0]|] eqn:Hi; try discriminate.
  rewrite list_lookup_insert_eq by (apply lookup_lt_is_Some; eauto).
  destruct p as [|j p].
  - intros [= <- <-]. cbn [app mux.addAt mux.routesAt].
    rewrite lookup_app_r by lia. rewrite Nat.sub_diag. reflexivity.
  - intros Hp. specialize (IH rs0 Hp).
    cbn [app] in *. exact IH.
Qed.

Lemma lookupRouter_new_group {H : Type} (p : mux.Ref) (c c' : mux.Route)
    (R : mux.Router H) (rs : list (mux.Node H)) (nf mna : option H) :
  mux.lookupRouter p R = Some (c, rs) →
  mux.lookupRouter (p ++ [length rs]) (mux.addRoute p (mux.Sub c' [] nf mna) R)
  = Some (c', []).
Proof.
  destruct p as [|i p].
  - cbn [mux.lookupRouter app]. intros [= <- <-].
    unfold mux.addRoute. cbn [mux.routes mux.setRoutes mux.addAt mux.routesAt].
    rewrite lookup_app_r by lia. rewrite Nat.sub_diag. reflexivity.
  - cbn [mux.lookupRouter]. intros Hp.
    unfold mux.addRoute. cbn [mux.routes mux.setRoutes].
    change ((i :: p) ++ [length rs]) with (i :: (p ++ [length rs])).
    cbn [mux.lookupRouter].
    exact (routesAt_new_group (i :: p) c c' _ rs nf mna Hp).
Qed.

Lemma keepsRouters_refl (v : State) : keepsRouters v v.
Proof. intros q c rs Hq. eauto. Qed.

Lemma keepsRouters_trans (v1 v2 v3 : State) :
  keepsRouters v1 v2 → keepsRouters v2 v3 → keepsRouters v1 v3.
Proof.
  intros H12 H23 q c rs Hq. destruct (H12 q c rs Hq) as [rs' Hq'].
  exact (H23 q c rs' Hq').
Qed.

Lemma initRouter_keepsRouters (r : iRoute) (v : State) : keepsRouters v (initRouter r v).
Proof.
  unfold initRouter. destruct (mux.lookupRouter (irouter r) (tree v)) as [[conf rs]|];
    [|apply keepsRouters_refl].
  intros q c x Hq. cbn [tree set_proc set_tree].
  exact (lookupRouter_addRoute_other q _ _ _ c x Hq).
Qed.

Lemma refsValid_step (v v' : State) :
  groups v' = groups v → self v' = self v → keepsRouters v v' →
  refsValid v → refsValid v'.
Proof.
  intros Hg Hs Hk Hv g rg Hget.
  assert (Hget' : getGroup g v = Some rg) by (destruct g; cbn in *; congruence).
  destruct (Hv g rg Hget') as [[c rs] Hl]. destruct (Hk _ _ _ Hl) as [rs' Hl']. eauto.
Qed.

Lemma getGroup_setGroup (g g0 : GroupRef) (rg rg' rg0 : RouterGroup) (v : State) :
  getGroup g v = Some rg →
  getGroup g0 (setGroup g rg' v) = Some rg0 →
  (g0 = g ∧ rg0 = rg') ∨ (g0 ≠ g ∧ getGroup g0 v = Some rg0).
Proof.
  intros Hg. destruct g as [|i], g0 as [|j]; cbn in *.
  - intros [= <-]. now left.
  - intros Hj. right. split; [discriminate | assumption].
  - intros [= <-]. right. split; [discriminate | reflexivity].
  - intros Hj. apply list_lookup_insert_Some in Hj as [(-> & -> & _)|(Hne & Hj)].
    + now left.
    + right. split; [congruence | assumption].
Qed.

Lemma refsValid_initRouter (r : iRoute) (v : State) : refsValid v → refsValid (initRouter r v).
Proof.
  destruct (initRouter_same r v) as [(_ & _ & Hs & Hg) _].
  apply refsValid_step; [assumption | assumption | apply initRouter_keepsRouters].
Qed.

Lemma refsValid_Prouter_UseMiddleware (m : list Middleware) (v : State) :
  refsValid v → refsValid (Prouter_UseMiddleware m v).
Proof.
  unfold Prouter_UseMiddleware. destruct (append _ _ _) as [h s].
  apply refsValid_step; [reflexivity | reflexivity | intros q c x Hq; eauto].
Qed.

Lemma refsValid_RouterGroup_UseMiddleware (g : GroupRef) (m : list Middleware) (v : State) :
  refsValid v → refsValid (RouterGroup_UseMiddleware g m v).
Proof.
  intros Hv. unfold RouterGroup_UseMiddleware.
  destruct (getGroup g v) as [rg|] eqn:Hg; [|assumption].
  destruct (append _ _ _) as [h s]. intros g0 rg0 Hget.
  assert (Htree : ∀ x, tree (setGroup g x (set_heap h v)) = tree v) by (now destruct g).
  rewrite Htree.
  apply (getGroup_setGroup g g0 rg) in Hget as [(-> & ->)|(_ & Hget)];
    [| |now destruct g].
  - exact (Hv g rg Hg).
  - apply (Hv g0 rg0). now destruct g0.
Qed.

Lemma refsValid_Group (g : GroupRef) (pfx : string) (v : State) :
  refsValid v → refsValid (Group g pfx v).2.
Proof.
  intros Hv. unfold Group.
  destruct (getGroup g v) as [rg|] eqn:Hg; [|assumption].
  destruct (mux.lookupRouter (router rg) (tree v)) as [[conf rs]|] eqn:Hl; [|assumption].
  cbn [snd]. intros g0 rg0 Hget. cbn [tree set_groups set_tree].
  destruct g0 as [|j]; cbn in Hget.
  - injection Hget as <-. destruct (Hv Self (self v) eq_refl) as [[c x] Hx].
    destruct (lookupRouter_addRoute_other _ (router rg) (mux.asNode
                (mux.Subrouter (mux.withPathPrefix pfx conf))) _ _ _ Hx) as [x' Hx'].
    eauto.
  - apply lookup_snoc_Some in Hget as [(_ & Hget)|(_ & <-)].
    + destruct (Hv (Child j) rg0 Hget) as [[c x] Hx].
      destruct (lookupRouter_addRoute_other _ (router rg) (mux.asNode
                  (mux.Subrouter (mux.withPathPrefix pfx conf))) _ _ _ Hx) as [x' Hx'].
      eauto.
    + cbn [router newGroupWithRouter]. unfold mux.asNode, mux.Subrouter. cbn.
      rewrite (lookupRouter_new_group (router rg) conf _ (tree v) rs None None Hl). eauto.
Qed.

Lemma New_start (p : Process) (opts : list RouterOption) :
  proc (New p opts) = p
  ∧ self (New p opts) = {| router := []; middlewares := emptySlice; root := true |}
  ∧ groups (New p opts) = [].
Proof.
  unfold New, parseOptions.
  match goal with |- context [fold_left applyOption opts ?x] => set (v0 := x) end.
  assert (Hp : ∀ (os : list RouterOption) (x : State),
             proc (fold_left applyOption os x) = proc x
             ∧ self (fold_left applyOption os x) = self x
             ∧ groups (fold_left applyOption os x) = groups x).
  { induction os as [|o os IH]; intros x; cbn; [now repeat split|].
    destruct (IH (applyOption x o)) as (-> & -> & ->). now destruct o. }
  destruct (Hp opts v0) as (H1 & H2 & H3).
  set (v1 := fold_left applyOption opts v0) in *.
  destruct (negb (isEmpty (host v1))); cbn [set_tree scheme host tree];
    destruct (negb (isEmpty (scheme v1))); cbn; rewrite ?H1, ?H2, ?H3; now repeat split.
Qed.

Lemma refsValid_New (p : Process) (opts : list RouterOption) : refsValid (New p opts).
Proof.
  destruct (New_start p opts) as (_ & Hs & Hg). intros [|i] rg; cbn; rewrite ?Hs, ?Hg.
  - intros [= <-]. cbn. eauto.
  - intros Hi. now rewrite lookup_nil in Hi.
Qed.

Lemma refsValid_run (p : Process) (opts : list RouterOption) (cs : list Cmd) :
  refsValid (run cs (New p opts)).
Proof.
  apply run_preserves.
  - intros r v. apply refsValid_initRouter.
  - intros m v. apply refsValid_Prouter_UseMiddleware.
  - intros g m v. apply refsValid_RouterGroup_UseMiddleware.
  - intros g pfx v. apply refsValid_Group.
  - apply refsValid_New.
Qed.

End Preservation.

(** ** Groups and registrations on reachable states *)

Section Reachable.
Context `{G : GoLib}.

(** X6. [Group] on an existing group gives a new handle whose group has no
    middlewares of its own (those of the parent are not taken over), is not
    the root, and owns a new router without routes under the parent's
    matchers plus the prefix; every group that existed, and every middleware
    list, is left as it was. *)
Theorem Group_starts_empty (p : Process) (opts : list RouterOption) (cs : list Cmd)
    (g : GroupRef) (rg : RouterGroup) (pfx : string) :
  let v := run cs (New p opts) in
  let g' := (Group g pfx v).1 in
  let v' := (Group g pfx v).2 in
  getGroup g v = Some rg →
  ∃ conf rs,
    mux.lookupRouter (router rg) (tree v) = Some (conf, rs)
    ∧ g' = Child (length (groups v))
    ∧ getGroup g' v = None
    ∧ getGroup g' v'
      = Some {| router := router rg ++ [length rs]; middlewares := emptySlice; root := false |}
    ∧ elems (heap v') emptySlice = []
    ∧ mux.lookupRouter (router rg ++ [length rs]) (tree v')
      = Some (mux.withPathPrefix pfx conf, [])
    ∧ (∀ g0 rg0, getGroup g0 v = Some rg0 → getGroup g0 v' = Some rg0)
    ∧ heap v' = heap v ∧ v_middlewares v' = v_middlewares v.
Proof.
  intros v g' v' Hg.
  destruct (refsValid_run p opts cs g rg Hg) as [[conf rs] Hl]. fold v in Hl.
  exists conf, rs. subst g' v'. unfold Group. rewrite Hg, Hl. cbn [fst snd].
  split; [reflexivity|]. split; [reflexivity|]. split.
  { cbn. apply lookup_ge_None. lia. }
  split.
  { cbn. rewrite lookup_app_r by lia. now rewrite Nat.sub_diag. }
  split; [reflexivity|]. split.
  { cbn [tree set_groups set_tree]. unfold mux.asNode, mux.Subrouter. cbn.
    exact (lookupRouter_new_group (router rg) conf _ (tree v) rs None None Hl). }
  split; [|now split].
  intros [|j] rg0 Hg0; cbn in *; [assumption|].
  rewrite lookup_app_l; [assumption|]. apply lookup_lt_is_Some. eauto.
Qed.

(** X7. [HandleRoute] on an existing group adds exactly one route, as the
    last route of the router of that group: the route built from the
    router's matchers, the path, the method and the options, with the
    closure of [makeHttpHandler] for the route as handler. Groups and
    middleware lists are untouched. *)
Theorem HandleRoute_appends_route (p : Process) (opts : list RouterOption) (cs : list Cmd)
    (g : GroupRef) (rg : RouterGroup) (method path : string) (handler : handlerFunc)
    (ropts : list RouteOption) :
  let v := run cs (New p opts) in
  let wr := routeFor rg method path handler ropts in
  let v' := HandleRoute g method path handler ropts v in
  getGroup g v = Some rg →
  ∃ conf rs,
    mux.lookupRouter (router rg) (tree v) = Some (conf, rs)
    ∧ mux.lookupRouter (router rg) (tree v')
      = Some (conf, rs ++ [mux.Leaf (routeBuilt conf wr) (RouteHandler wr)])
    ∧ sameSlices v v'.
Proof.
  intros v wr v' Hg.
  destruct (refsValid_run p opts cs g rg Hg) as [[conf rs] Hl]. fold v in Hl.
  exists conf, rs. split; [assumption|].
  subst v'. split; [|apply HandleRoute_same].
  rewrite (HandleRoute_routeFor g rg) by assumption. fold wr.
  rewrite (initRouter_found wr v conf rs Hl). cbn [tree set_proc set_tree].
  exact (lookupRouter_addRoute_here (router rg) _ (tree v) conf rs Hl).
Qed.

Example group_route_template :
  let v := Demo.setup [CGroup Self "/g/"; CHandleRoute (Child 0) "" "/x" (Demo.reply 200 "x") []] in
  plog (proc v) = [LogRoute "ANY" "/g/x" "handler"].
Proof. reflexivity. Qed.

(** *** The mode and the log *)

Lemma debugPrintRoute_mode (method : string) (r : mux.Route) (handler : handlerFunc)
    (q : Process) :
  prouterMode (debugPrintRoute method r handler q) = prouterMode q
  ∧ (prouterMode q ≠ DebugMode → debugPrintRoute method r handler q = q).
Proof.
  unfold debugPrintRoute.
  destruct (Z.eqb_spec (prouterMode q) DebugMode) as [He|Hne]; cbn [negb].
  - split; [|contradiction]. now destruct (GetPathTemplate r).
  - now split.
Qed.

Lemma initRouter_quiet_log (value : Z) (l : list LogLine) (r : iRoute) (v : State) :
  prouterMode (proc v) = value ∧ (value ≠ DebugMode → plog (proc v) = l) →
  prouterMode (proc (initRouter r v)) = value
  ∧ (value ≠ DebugMode → plog (proc (initRouter r v)) = l).
Proof.
  intros (Hm & Hl). unfold initRouter.
  destruct (mux.lookupRouter _ _) as [[conf rs]|]; [|now split].
  cbn [proc set_proc set_tree].
  match goal with |- context [debugPrintRoute ?a ?b ?c ?d] =>
    destruct (debugPrintRoute_mode a b c d) as [Hm' Hq] end.
  cbn [proc set_tree] in *. split; [congruence|].
  intros Hne. rewrite Hq by congruence. now apply Hl.
Qed.

Lemma run_quiet_log (value : Z) (l : list LogLine) (cs : list Cmd) (v : State) :
  prouterMode (proc v) = value ∧ (value ≠ DebugMode → plog (proc v) = l) →
  prouterMode (proc (run cs v)) = value
  ∧ (value ≠ DebugMode → plog (proc (run cs v)) = l).
Proof.
  apply (run_preserves
           (λ x, prouterMode (proc x) = value ∧ (value ≠ DebugMode → plog (proc x) = l))).
  - intros r x. apply initRouter_quiet_log.
  - intros m x Hx. unfold Prouter_UseMiddleware. now destruct (append _ _ _).
  - intros g m x Hx. unfold RouterGroup_UseMiddleware.
    destruct (getGroup g x); [|assumption]. destruct (append _ _ _). now destruct g.
  - intros g pfx x Hx. unfold Group. destruct (getGroup g x); [|assumption].
    now destruct (mux.lookupRouter _ _) as [[? ?]|].
Qed.

(** X8. No registration changes the mode, and outside debug mode no
    registration logs anything: after [SetMode] has set the mode, any
    program built on a new router leaves the mode as set, and in release
    mode it leaves the log as it was. *)
Theorem release_mode_is_silent (value : Z) (p p' : Process) (opts : list RouterOption)
    (cs : list Cmd) :
  SetMode value p = Ok p' →
  prouterMode (proc (run cs (New p' opts))) = value
  ∧ (value = ReleaseMode → plog (proc (run cs (New p' opts))) = plog p).
Proof.
  intros Hset.
  assert (Hp' : prouterMode p' = value ∧ plog p' = plog p).
  { unfold SetMode in Hset.
    destruct (Z.eqb_spec value DebugMode) as [->|H0]; [injection Hset as <-; now split|].
    destruct (Z.eqb_spec value ReleaseMode) as [->|H1]; [injection Hset as <-; now split|].
    discriminate. }
  destruct Hp' as [Hm Hl]. destruct (New_start p' opts) as (Hproc & _ & _).
  destruct (run_quiet_log value (plog p) cs (New p' opts)) as [H1 H2].
  { rewrite Hproc. split; [assumption | now intros _]. }
  split; [assumption|]. intros ->. now apply H2.
Qed.


End Reachable.

Lemma Group_starts_empty_witness :
  let v := Demo.setup [CUse Self [traceMiddleware "R"]; CGroup Self "/a";
                       CUse (Child 0) [traceMiddleware "C"]] in
  getGroup (Child 0) v
  = Some {| router := [0]; middlewares := {| arr := 1; len := 1; cap := 1 |}; root := false |}
  ∧ getGroup (Group (Child 0) "/b" v).1 (Group (Child 0) "/b" v).2
    = Some {| router := [0; 0]; middlewares := emptySlice; root := false |}.
Proof.
  intros v. split; [reflexivity|].
  destruct (Group_starts_empty (G := Demo.lib) startup []
              [CUse Self [traceMiddleware "R"]; CGroup Self "/a";
               CUse (Child 0) [traceMiddleware "C"]]
              (Child 0)
              {| router := [0]; middlewares := {| arr := 1; len := 1; cap := 1 |};
                 root := false |} "/b" eq_refl)
    as (conf & rs & Hl & _ & _ & Hnew & _).
  injection Hl as <- <-. exact Hnew.
Defined.

Lemma HandleRoute_appends_route_witness :
  let v := Demo.setup [CGroup Self "/g"] in
  getGroup (Child 0) v = Some {| router := [0]; middlewares := emptySlice; root := false |}
  ∧ ∃ conf rs,
      mux.lookupRouter [0] (tree v) = Some (conf, rs)
      ∧ mux.lookupRouter [0] (tree (HandleRoute (Child 0) "GET" "/x" (Demo.reply 200 "x") [] v))
        = Some (conf, rs ++ [mux.Leaf
                               (routeBuilt conf
                                  (routeFor {| router := [0]; middlewares := emptySlice;
                                               root := false |}
                                     "GET" "/x" (Demo.reply 200 "x") []))
                               (RouteHandler
                                  (routeFor {| router := [0]; middlewares := emptySlice;
                                               root := false |}
                                     "GET" "/x" (Demo.reply 200 "x") []))])
      ∧ sameSlices v (HandleRoute (Child 0) "GET" "/x" (Demo.reply 200 "x") [] v).
Proof.
  intros v. split; [reflexivity|].
  exact (HandleRoute_appends_route (G := Demo.lib) startup [] [CGroup Self "/g"] (Child 0)
           {| router := [0]; middlewares := emptySlice; root := false |}
           "GET" "/x" (Demo.reply 200 "x") [] eq_refl).
Defined.

Lemma release_mode_is_silent_witness :
  SetMode 1 startup = Ok {| prouterMode := 1; plog := [] |}
  ∧ plog (proc (run (G := Demo.lib)
                  [CGroup Self "/g"; CHandleRoute (Child 0) "GET" "/x" (Demo.reply 200 "x") []]
                  (New {| prouterMode := 1; plog := [] |} [])))
    = [].
Proof.
  split; [reflexivity|].
  exact (proj2 (release_mode_is_silent (G := Demo.lib) 1 startup
                  {| prouterMode := 1; plog := [] |} []
                  [CGroup Self "/g"; CHandleRoute (Child 0) "GET" "/x" (Demo.reply 200 "x") []]
                  eq_refl) eq_refl).
Defined.


(** ** Middleware lists *)

Section MiddlewareLists.
Context `{G : GoLib}.

Lemma appIndex_inj (g g0 : GroupRef) : appIndex g0 = appIndex g → g0 = g.
Proof. destruct g, g0; cbn; intros He; try lia; try reflexivity. f_equal. lia. Qed.

Lemma getGroup_setGroup_same (g : GroupRef) (rg rg' : RouterGroup) (v : State) :
  getGroup g v = Some rg → getGroup g (setGroup g rg' v) = Some rg'.
Proof.
  destruct g as [|i]; cbn; [reflexivity|]. intros Hi.
  apply list_lookup_insert_eq. apply lookup_lt_is_Some. eauto.
Qed.

Lemma getGroup_setGroup_other (g g0 : GroupRef) (rg' : RouterGroup) (v : State) :
  g0 ≠ g → getGroup g0 (setGroup g rg' v) = getGroup g0 v.
Proof.
  destruct g as [|i], g0 as [|j]; cbn; try reflexivity; try congruence.
  intros Hne. apply list_lookup_insert_ne. congruence.
Qed.

(** X10. [RouterGroup.UseMiddleware] on an existing group puts the new
    middlewares after the ones the group has, in the order given, and
    changes nothing else: the other groups, the global list and the routes
    are what they were. *)
Theorem RouterGroup_UseMiddleware_appends (p : Process) (opts : list RouterOption)
    (cs : list Cmd) (g : GroupRef) (rg : RouterGroup) (m : list Middleware) :
  let v := run cs (New p opts) in
  let v' := RouterGroup_UseMiddleware g m v in
  getGroup g v = Some rg →
  (∃ rg', getGroup g v' = Some rg' ∧ router rg' = router rg ∧ root rg' = root rg
          ∧ elems (heap v') (middlewares rg') = elems (heap v) (middlewares rg) ++ m)
  ∧ (∀ g0 rg0, g0 ≠ g → getGroup g0 v = Some rg0 →
       getGroup g0 v' = Some rg0
       ∧ elems (heap v') (middlewares rg0) = elems (heap v) (middlewares rg0))
  ∧ elems (heap v') (v_middlewares v') = elems (heap v) (v_middlewares v)
  ∧ tree v' = tree v.
Proof.
  intros v v' Hg.
  assert (Hwf : wf [] v) by (apply wf_run, wf_New).
  assert (Hi : appenders v !! appIndex g = Some (middlewares rg))
    by (now rewrite appenders_lookup, Hg).
  pose proof (append_elems (heap v) (middlewares rg) m (wf_apps _ _ _ Hwf _ _ Hi)) as Hown.
  pose proof (λ j b, wfH_append_other (heap v) (appenders v) [] (appIndex g) j
                       (middlewares rg) b m Hwf Hi) as Hother.
  subst v'. unfold RouterGroup_UseMiddleware. rewrite Hg.
  destruct (append (heap v) (middlewares rg) m) as [h s]. cbn [fst snd] in *.
  assert (Hheap : ∀ x, heap (setGroup g x (set_heap h v)) = h) by (now destruct g).
  assert (Hglob : ∀ x, v_middlewares (setGroup g x (set_heap h v)) = v_middlewares v)
    by (now destruct g).
  assert (Htree : ∀ x, tree (setGroup g x (set_heap h v)) = tree v) by (now destruct g).
  rewrite Hheap, Hglob, Htree. split; [|split; [|split]].
  - eexists. split; [apply (getGroup_setGroup_same g rg); now destruct g|].
    cbn. now repeat split.
  - intros g0 rg0 Hne Hg0. rewrite getGroup_setGroup_other by assumption.
    split; [now destruct g0|].
    apply (Hother (appIndex g0)).
    + now rewrite appenders_lookup, Hg0.
    + intros He. apply Hne. symmetry in He. now apply appIndex_inj.
  - apply (Hother 0); [reflexivity | destruct g; cbn; lia].
  - reflexivity.
Qed.

(** X11. [Prouter.UseMiddleware] puts the new middlewares after the global
    ones already there, in the order given; the groups, their own lists and
    the routes are what they were. *)
Theorem Prouter_UseMiddleware_appends (p : Process) (opts : list RouterOption)
    (cs : list Cmd) (m : list Middleware) :
  let v := run cs (New p opts) in
  let v' := Prouter_UseMiddleware m v in
  elems (heap v') (v_middlewares v') = elems (heap v) (v_middlewares v) ++ m
  ∧ (∀ g0 rg0, getGroup g0 v = Some rg0 →
       getGroup g0 v' = Some rg0
       ∧ elems (heap v') (middlewares rg0) = elems (heap v) (middlewares rg0))
  ∧ tree v' = tree v.
Proof.
  intros v v'.
  assert (Hwf : wf [] v) by (apply wf_run, wf_New).
  assert (Hi : appenders v !! 0 = Some (v_middlewares v)) by reflexivity.
  pose proof (append_elems (heap v) (v_middlewares v) m (wf_apps _ _ _ Hwf _ _ Hi)) as Hown.
  pose proof (λ j b, wfH_append_other (heap v) (appenders v) [] 0 j
                       (v_middlewares v) b m Hwf Hi) as Hother.
  subst v'. unfold Prouter_UseMiddleware.
  destruct (append (heap v) (v_middlewares v) m) as [h s]. cbn [fst snd] in *.
  split; [exact Hown|]. split; [|reflexivity].
  intros g0 rg0 Hg0. split; [now destruct g0|].
  cbn [heap set_v_middlewares set_heap].
  apply (Hother (appIndex g0)).
  - now rewrite appenders_lookup, Hg0.
  - destruct g0; cbn; lia.
Qed.

(** X12. The global list is read when a request is dispatched, not when the
    route is registered: after a route was registered on a group, whatever
    was called since, middlewares put on the [Prouter] by [UseMiddleware]
    are run for that route, inside the middlewares recorded for the route
    and after the global ones already there. *)
Theorem global_middlewares_reach_registered_routes (p : Process)
    (opts : list RouterOption) (cs later : list Cmd) (g : GroupRef) (rg : RouterGroup)
    (method path : string) (handler : handlerFunc) (ropts : list RouteOption)
    (m : list Middleware) :
  let v0 := run cs (New p opts) in
  let wr := routeFor rg method path handler ropts in
  let v1 := run later (HandleRoute g method path handler ropts v0) in
  let v2 := Prouter_UseMiddleware m v1 in
  getGroup g v0 = Some rg →
  handleSpecifyMiddleware (heap v2) wr (handleGlobalMiddleware v2 (Handler (route wr)))
  = foldr WrapHandler handler
      (elems (heap v1) (middleware wr) ++ elems (heap v1) (v_middlewares v1) ++ m).
Proof.
  intros v0 wr v1 v2 Hg.
  assert (Hwf1 : wf [middleware wr] v1).
  { apply wf_run. eapply wf_sameSlices; [apply HandleRoute_same|].
    apply (wf_routeFor [] g); [apply wf_run, wf_New | assumption]. }
  assert (Hin : middleware wr ∈ [middleware wr]) by (apply elem_of_cons; now left).
  rewrite effective_handler.
  pose proof (snapshot_exec [middleware wr] (middleware wr) (CProuterUse m) v1 Hwf1 Hin)
    as Hsnap.
  cbn [exec] in Hsnap. fold v2 in Hsnap. rewrite Hsnap.
  assert (Hi : appenders v1 !! 0 = Some (v_middlewares v1)) by reflexivity.
  pose proof (append_elems (heap v1) (v_middlewares v1) m (wf_apps _ _ _ Hwf1 _ _ Hi)) as Hown.
  subst v2. unfold Prouter_UseMiddleware.
  destruct (append (heap v1) (v_middlewares v1) m) as [h s]. cbn [fst snd] in *.
  cbn [heap v_middlewares set_v_middlewares set_heap]. now rewrite Hown.
Qed.

(** X13. [HandlerRouter] registers each route with the middleware list the
    group has at the call, for the root group as for any other (where
    [HandleRoute] records none for the root); what is recorded is not
    changed by anything called afterwards. *)
Theorem HandlerRouter_records_group_middlewares (p : Process) (opts : list RouterOption)
    (cs : list Cmd) (g : GroupRef) (rg : RouterGroup) (r : Route) :
  let v0 := run cs (New p opts) in
  let wr := {| route := r; irouter := router rg; middleware := middlewares rg;
               routeOption := Option r |} in
  getGroup g v0 = Some rg →
  HandlerRouter g [[r]] v0 = initRouter wr v0
  ∧ (∀ later : list Cmd,
       elems (heap (run later (HandlerRouter g [[r]] v0))) (middleware wr)
       = elems (heap v0) (middlewares rg)).
Proof.
  intros v0 wr Hg.
  assert (Heq : HandlerRouter g [[r]] v0 = initRouter wr v0).
  { unfold HandlerRouter. cbn [fold_left]. now rewrite Hg. }
  split; [assumption|]. intros later. rewrite Heq.
  assert (Hwf : wf [middlewares rg] (initRouter wr v0)).
  { eapply wf_sameSlices; [apply initRouter_same|].
    apply (wfH_snapshot _ _ _ (appIndex g)); [apply wf_run, wf_New|].
    now rewrite appenders_lookup, Hg. }
  rewrite (snapshot_run [middlewares rg]); [| assumption | apply elem_of_cons; now left].
  destruct (initRouter_same wr v0) as [(-> & _) _]. reflexivity.
Qed.

(** [HandlerRouter] with several routers registers the routes of all of
    them in order, as one call with the routes put together does. *)
Lemma HandlerRouter_concat (g : GroupRef) (routers : list (list Route)) (v : State) :
  HandlerRouter g routers v = HandlerRouter g [concat routers] v
  ∧ (concat routers = [] → HandlerRouter g routers v = v).
Proof.
  assert (Heq : HandlerRouter g routers v = HandlerRouter g [concat routers] v).
  { unfold HandlerRouter. cbn [fold_left]. revert v.
    induction routers as [|rs routers IH]; intros v; cbn [fold_left concat]; [reflexivity|].
    now rewrite IH, fold_left_app. }
  split; [assumption|]. intros Hnil. rewrite Heq, Hnil. reflexivity.
Qed.

End MiddlewareLists.

Lemma RouterGroup_UseMiddleware_appends_witness :
  let v := Demo.setup Demo.grown in
  let v' := RouterGroup_UseMiddleware (G := Demo.lib) (Child 0) [traceMiddleware "F"] v in
  getGroup (Child 0) v = Some Demo.grownGroup
  ∧ ∃ rg', getGroup (Child 0) v' = Some rg'
           ∧ elems (heap v') (middlewares rg')
             = map traceMiddleware ["C"; "D"; "E"] ++ [traceMiddleware "F"].
Proof.
  intros v v'. split; [reflexivity|].
  destruct (RouterGroup_UseMiddleware_appends (G := Demo.lib) startup [] Demo.grown (Child 0)
              Demo.grownGroup [traceMiddleware "F"] eq_refl)
    as ((rg' & Hget & _ & _ & Hel) & _).
  exists rg'. split; [exact Hget | exact Hel].
Defined.

Lemma global_middlewares_reach_registered_routes_witness :
  let v0 := Demo.setup Demo.grown in
  let wr := routeFor Demo.grownGroup "GET" "/x" (traceHandler None None) [] in
  let v1 := run (G := Demo.lib) []
              (HandleRoute (Child 0) "GET" "/x" (traceHandler None None) [] v0) in
  let v2 := Prouter_UseMiddleware (G := Demo.lib) [traceMiddleware "G"] v1 in
  getGroup (Child 0) v0 = Some Demo.grownGroup
  ∧ elems (heap v1) (middleware wr) = map traceMiddleware ["C"; "D"; "E"]
  ∧ elems (heap v1) (v_middlewares v1) = []
  ∧ handleSpecifyMiddleware (heap v2) wr (handleGlobalMiddleware v2 (Handler (route wr)))
    = foldr WrapHandler (traceHandler None None)
        (elems (heap v1) (middleware wr) ++ elems (heap v1) (v_middlewares v1)
         ++ [traceMiddleware "G"]).
Proof.
  intros v0 wr v1 v2. split; [reflexivity|].
  split; [vm_compute; reflexivity|]. split; [vm_compute; reflexivity|].
  exact (global_middlewares_reach_registered_routes (G := Demo.lib) startup [] Demo.grown []
           (Child 0) Demo.grownGroup "GET" "/x" (traceHandler None None) []
           [traceMiddleware "G"] eq_refl).
Defined.

Lemma HandlerRouter_records_group_middlewares_witness :
  let v0 := Demo.setup [CUse Self [traceMiddleware "R"]] in
  let r := NewRoute "GET" "/x" (traceHandler None None) in
  getGroup Self v0 = Some (self v0)
  ∧ (∀ later : list Cmd,
       elems (heap (run (G := Demo.lib) later (HandlerRouter Self [[r]] v0)))
             (middlewares (self v0))
       = [traceMiddleware "R"]).
Proof.
  intros v0 r. split; [reflexivity|].
  exact (proj2 (HandlerRouter_records_group_middlewares (G := Demo.lib) startup []
                  [CUse Self [traceMiddleware "R"]] Self (self v0) r eq_refl)).
Defined.

(** on the root, a route of [HandlerRouter] runs the middlewares put on the
    embedded group, a route of [HandleRoute] does not *)
Example root_group_middlewares :
  let v := Demo.setup [CUse Self [traceMiddleware "R"];
                       CHandlerRouter Self [[NewRoute "GET" "/a" (traceHandler None None)]];
                       CHandleRoute Self "GET" "/b" (traceHandler None None) []] in
  Demo.stdoutOf (Demo.serve v "GET" "/a") = ["enter R"; "handler"; "exit R"]
  ∧ Demo.stdoutOf (Demo.serve v "GET" "/b") = ["handler"].
Proof. split; vm_compute; reflexivity. Qed.

(** ** Routes that no request can reach *)

Section Unreachable.
Context `{T : MuxTemplates} {H : Type}.

Lemma rejects_Miss (req : http.Request) (n : mux.Node H) :
  rejects req n → mux.matchNode req n = mux.Miss.
Proof. destruct n as [r h|c rs nf mna]; cbn; now intros ->. Qed.

Lemma firstVerdict_all_Miss (req : http.Request) (rs : list (mux.Node H)) :
  Forall (rejects req) rs → mux.firstVerdict (map (mux.matchNode req) rs) = mux.Miss.
Proof.
  induction 1 as [|n rs Hn _ IH]; cbn; [reflexivity|].
  now rewrite (rejects_Miss req n Hn).
Qed.

(** a route that misses every time does not change the search *)
Lemma search_inert (req : http.Request) (n : mux.Node H) (p : mux.Ref) :
  mux.matchNode req n = mux.Miss →
  ∀ rs : list (mux.Node H),
    mux.firstVerdict (map (mux.matchNode req) (mux.addAt p n rs))
    = mux.firstVerdict (map (mux.matchNode req) rs).
Proof.
  intros Hn. induction p as [|i p IH]; intros rs.
  - cbn [mux.addAt]. rewrite map_app, firstVerdict_app. cbn [map]. rewrite Hn. cbn.
    now destruct (mux.firstVerdict _).
  - cbn [mux.addAt].
    destruct (rs !! i) as [[r h|c rs' nf mna]|] eqn:Hi; try reflexivity.
    f_equal. rewrite list_fmap_insert.
    apply list_insert_id. rewrite list_lookup_fmap, Hi. cbn [fmap option_fmap option_map].
    f_equal. cbn [mux.matchNode]. now rewrite IH.
Qed.

Lemma blocked_matchAll (req : http.Request) (ms : list mux.Matcher) (m : mux.Matcher)
    (vars : gmap string string) (mismatch : bool) :
  m ∈ ms → blocks req m → mux.matchAll ms req vars mismatch = mux.Reject.
Proof.
  intros Hin [Hnone Hmeth]. revert vars mismatch.
  induction ms as [|m0 ms IH]; intros vars mismatch; [now apply elem_of_nil in Hin|].
  cbn [mux.matchAll]. apply elem_of_cons in Hin as [<-|Hin].
  - now rewrite Hnone, Hmeth.
  - destruct (mux.matchOne m0 req); [now apply IH|].
    destruct (mux.isMethods m0); [now apply IH | reflexivity].
Qed.

Lemma blocked_matchRoute (req : http.Request) (r : mux.Route) (m : mux.Matcher) :
  m ∈ mux.matchers r → blocks req m → mux.matchRoute r req = mux.Reject.
Proof.
  intros Hin Hb. unfold mux.matchRoute. destruct (mux.err r); [reflexivity|].
  now apply (blocked_matchAll req _ m).
Qed.

(** what is added to a router of the tree leaves the routes at the top
    rejecting, when the route added at the top itself rejects *)
Lemma addAt_rejects (req : http.Request) (p : mux.Ref) (n : mux.Node H)
    (rs : list (mux.Node H)) :
  Forall (rejects req) rs → (p = [] → rejects req n) →
  Forall (rejects req) (mux.addAt p n rs).
Proof.
  intros Hrs Hn. destruct p as [|i p]; cbn [mux.addAt].
  - apply Forall_app. split; [assumption|]. constructor; [now apply Hn | constructor].
  - destruct (rs !! i) as [[r h|c rs' nf mna]|] eqn:Hi; try assumption.
    apply Forall_insert; [assumption|].
    exact (proj1 (Forall_lookup _ _) Hrs i _ Hi).
Qed.

Lemma requestScheme_blocked (req : http.Request) : blocks req (mux.Schemes [EmptyString]).
Proof.
  split; [|reflexivity]. cbn.
  rewrite bool_decide_eq_false_2; [reflexivity|].
  intros Hin. apply list_elem_of_singleton in Hin.
  unfold mux.requestScheme in Hin.
  destruct (url.Scheme (http.URL req)); [destruct (http.TLS req)|]; discriminate.
Qed.

End Unreachable.

Lemma onlyAdds_fold (opts : list RouteOption) :
  Forall onlyAdds opts → onlyAdds (fun r => fold_left (fun next opt => opt next) opts r).
Proof.
  induction 1 as [|o opts Ho _ IH]; intros r; cbn [fold_left]; [now split|].
  destruct (Ho r) as [He Hm]. destruct (IH (o r)) as [He' Hm']. split; auto.
Qed.

(** the route built for a path that does not start with a slash carries
    the error, and the route built on a router keeps the router's matchers *)
Lemma routeBuilt_keeps (conf : mux.Route) (wr : iRoute) :
  match routeOption wr with Some o => onlyAdds o | None => True end →
  (mux.badStart (Path (route wr)) = true → mux.err (routeBuilt conf wr) = true)
  ∧ (∀ m, m ∈ mux.matchers conf → m ∈ mux.matchers (routeBuilt conf wr)).
Proof.
  intros Ho. unfold routeBuilt.
  set (vr := mux.withPath (Path (route wr)) conf).
  assert (H1 : (mux.badStart (Path (route wr)) = true → mux.err vr = true)
               ∧ (∀ m, m ∈ mux.matchers conf → m ∈ mux.matchers vr)).
  { subst vr. unfold mux.withPath, mux.addPathMatcher.
    destruct (mux.badStart (Path (route wr))); cbn; split; auto; try discriminate.
    intros m Hm. apply elem_of_app. now left. }
  set (vr' := if negb (isEmpty (Method (route wr)))
              then mux.withMethods [Method (route wr)] vr else vr).
  assert (H2 : (mux.badStart (Path (route wr)) = true → mux.err vr' = true)
               ∧ (∀ m, m ∈ mux.matchers conf → m ∈ mux.matchers vr')).
  { subst vr'. destruct (negb _); [|assumption]. destruct H1 as [He Hm]. cbn. split; [assumption|].
    intros m Hin. apply elem_of_app. left. now apply Hm. }
  destruct H2 as [He Hm]. destruct (routeOption wr) as [o|]; [|now split].
  destruct (Ho vr') as [He' Hm']. split; auto.
Qed.

Section UnreachableRoutes.
Context `{G : GoLib} `{T : MuxTemplates} `{B : Builtins}.

(** X14. A route whose path does not start with a slash is registered in
    error and no request ever reaches it: with route options that only add
    to the route, dispatch after such a [HandleRoute] is what it was before
    it. *)
Theorem path_without_slash_is_unreachable (g : GroupRef) (method path : string)
    (handler : handlerFunc) (opts : list RouteOption) (v : State)
    (r : http.Request) (w : World) :
  mux.badStart path = true →
  Forall onlyAdds opts →
  ServeHTTP (HandleRoute g method path handler opts v) r w = ServeHTTP v r w.
Proof.
  intros Hbad Hopts.
  destruct (getGroup g v) as [rg|] eqn:Hg; [|unfold HandleRoute; now rewrite Hg].
  rewrite (HandleRoute_routeFor g rg) by assumption.
  set (wr := routeFor rg method path handler opts).
  destruct (mux.lookupRouter (irouter wr) (tree v)) as [[conf rs]|] eqn:Hl;
    [|now rewrite (initRouter_missing wr v Hl)].
  rewrite (initRouter_found wr v conf rs Hl).
  destruct (routeBuilt_keeps conf wr (onlyAdds_fold opts Hopts)) as [Herr _].
  specialize (Herr Hbad).
  assert (Hmiss : mux.matchNode r (mux.Leaf (routeBuilt conf wr) (RouteHandler wr)) = mux.Miss).
  { cbn [mux.matchNode]. unfold mux.matchRoute. now rewrite Herr. }
  unfold ServeHTTP, mux.decide, mux.Match, mux.search.
  cbn [tree set_proc set_tree mux.addRoute mux.setRoutes mux.routes mux.NotFoundHandler
       mux.MethodNotAllowedHandler].
  rewrite (search_inert r _ (irouter wr) Hmiss).
  destruct (negb _); [reflexivity|].
  destruct (mux.fallback _ _ _) as [h vars| |]; [|reflexivity|reflexivity].
  now apply runHandler_ext.
Qed.

(** *** A scheme without a host *)

Lemma New_conf (p : Process) (opts : list RouterOption) :
  mux.matchers (mux.conf (tree (New p opts)))
  = (if isEmpty (optionHost opts) then [] else [mux.Host (optionHost opts)])
    ++ (if isEmpty (optionScheme opts) then [] else [mux.Schemes [optionHost opts]])
  ∧ (isEmpty (optionHost opts) && isEmpty (optionScheme opts) = false →
     mux.routes (tree (New p opts)) = []).
Proof.
  unfold New, parseOptions.
  set (v0 := {| proc := p |}).
  set (v1 := fold_left applyOption opts v0).
  assert (Hc : mux.matchers (mux.conf (tree v1)) = []).
  { unfold v1. rewrite applyOptions_conf. reflexivity. }
  assert (Hhost : optionHost opts = host v1)
    by (symmetry; exact (applyOptions_host opts v0)).
  assert (Hscheme : optionScheme opts = scheme v1)
    by (symmetry; exact (applyOptions_scheme opts v0)).
  rewrite Hhost, Hscheme.
  destruct (isEmpty (host v1)) eqn:Hh; cbn [negb set_tree scheme host tree andb];
    destruct (isEmpty (scheme v1)) eqn:Hs; cbn [negb]; cbn; rewrite ?Hh, ?Hc;
    split; try reflexivity; discriminate.
Qed.

(** the state of a router whose own matchers no request passes *)
Lemma blocked_initRouter (req : http.Request) (m : mux.Matcher) (wr : iRoute) (v : State) :
  match routeOption wr with Some o => onlyAdds o | None => True end →
  blocks req m →
  m ∈ mux.matchers (mux.conf (tree v)) ∧ Forall (rejects req) (mux.routes (tree v)) →
  m ∈ mux.matchers (mux.conf (tree (initRouter wr v)))
  ∧ Forall (rejects req) (mux.routes (tree (initRouter wr v))).
Proof.
  intros Ho Hb [Hm Hrs].
  destruct (mux.lookupRouter (irouter wr) (tree v)) as [[conf rs]|] eqn:Hl;
    [|now rewrite (initRouter_missing wr v Hl)].
  rewrite (initRouter_found wr v conf rs Hl).
  cbn [tree set_proc set_tree mux.addRoute mux.setRoutes mux.routes mux.conf].
  split; [assumption|]. apply addAt_rejects; [assumption|].
  intros Hp. rewrite Hp in Hl. cbn in Hl. injection Hl as <- <-.
  cbn [rejects]. apply (blocked_matchRoute req _ m); [|assumption].
  now apply (routeBuilt_keeps (mux.conf (tree v)) wr Ho).
Qed.

Lemma blocked_Group (req : http.Request) (m : mux.Matcher) (g : GroupRef) (pfx : string)
    (v : State) :
  blocks req m →
  m ∈ mux.matchers (mux.conf (tree v)) ∧ Forall (rejects req) (mux.routes (tree v)) →
  m ∈ mux.matchers (mux.conf (tree (Group g pfx v).2))
  ∧ Forall (rejects req) (mux.routes (tree (Group g pfx v).2)).
Proof.
  intros Hb [Hm Hrs]. unfold Group.
  destruct (getGroup g v) as [rg|]; [|now split].
  destruct (mux.lookupRouter (router rg) (tree v)) as [[conf rs]|] eqn:Hl; [|now split].
  cbn [snd tree set_groups set_tree mux.addRoute mux.setRoutes mux.routes mux.conf].
  split; [assumption|]. apply addAt_rejects; [assumption|].
  intros Hp. rewrite Hp in Hl. cbn in Hl. injection Hl as <- <-.
  cbn [rejects mux.asNode mux.Subrouter mux.conf].
  apply (blocked_matchRoute req _ m); [|assumption].
  unfold mux.withPathPrefix, mux.addPathMatcher.
  destruct (mux.badStart pfx); cbn; [assumption|]. apply elem_of_app. now left.
Qed.

Lemma blocked_HandlerRouter (req : http.Request) (m : mux.Matcher) (g : GroupRef)
    (routers : list (list Route)) (v : State) :
  Forall onlyAdds (omap Option (concat routers)) →
  blocks req m →
  m ∈ mux.matchers (mux.conf (tree v)) ∧ Forall (rejects req) (mux.routes (tree v)) →
  m ∈ mux.matchers (mux.conf (tree (HandlerRouter g routers v)))
  ∧ Forall (rejects req) (mux.routes (tree (HandlerRouter g routers v))).
Proof.
  intros Hopts Hb. rewrite (proj1 (HandlerRouter_concat g routers v)).
  unfold HandlerRouter. cbn [fold_left]. revert v Hopts.
  induction (concat routers) as [|r rs IH]; intros v Hopts Hv; cbn [fold_left]; [assumption|].
  assert (Hr : match Option r with Some o => onlyAdds o | None => True end
               ∧ Forall onlyAdds (omap Option rs)).
  { cbn [omap list_omap] in Hopts. destruct (Option r) as [o|]; [|now split].
    now apply Forall_cons in Hopts. }
  destruct Hr as [Hr Hrs]. apply IH; [assumption|].
  destruct (getGroup g v) as [rg|]; [|assumption].
  now apply blocked_initRouter.
Qed.

Lemma blocked_exec (req : http.Request) (m : mux.Matcher) (c : Cmd) (v : State) :
  Forall onlyAdds (cmdOptions c) →
  blocks req m →
  m ∈ mux.matchers (mux.conf (tree v)) ∧ Forall (rejects req) (mux.routes (tree v)) →
  m ∈ mux.matchers (mux.conf (tree (exec v c)))
  ∧ Forall (rejects req) (mux.routes (tree (exec v c))).
Proof.
  intros Hopts Hb Hv.
  assert (Hroute : ∀ g method path handler opts,
             Forall onlyAdds opts →
             m ∈ mux.matchers (mux.conf (tree (HandleRoute g method path handler opts v)))
             ∧ Forall (rejects req)
                 (mux.routes (tree (HandleRoute g method path handler opts v)))).
  { intros g method path handler opts Ho. unfold HandleRoute.
    destruct (getGroup g v); [|assumption].
    apply blocked_initRouter; [|assumption|assumption]. now apply onlyAdds_fold. }
  destruct c as [ms|g ms|g routers|g method path handler opts|g pfx|g relativePath fs opts
                |g path root0 opts]; cbn [exec cmdOptions] in *.
  - unfold Prouter_UseMiddleware. now destruct (append _ _ _).
  - unfold RouterGroup_UseMiddleware. destruct (getGroup g v); [|assumption].
    destruct (append _ _ _). now destruct g.
  - now apply blocked_HandlerRouter.
  - now apply Hroute.
  - now apply blocked_Group.
  - now apply Hroute.
  - now apply Hroute.
Qed.

(** X15. With a scheme configured and no host, the router of [NewProuter]
    requires the scheme of a request to be the empty string, which it never
    is: whatever is registered, with route options that only add to their
    route, the search finds no route for any request and every request with
    a canonical path is answered by the 404 envelope. *)
Theorem scheme_without_host_serves_nothing (p : Process) (opts : list RouterOption)
    (cs : list Cmd) (r : http.Request) (w : World) :
  let v := run cs (NewProuter p opts) in
  optionScheme opts ≠ EmptyString →
  optionHost opts = EmptyString →
  Forall onlyAdds (concat (map cmdOptions cs)) →
  mux.search (tree v) r = mux.Miss
  ∧ (cleanPath (url.Path (http.URL r)) = url.Path (http.URL r) →
     ServeHTTP v r w
     = Done (send (WJSON 404 {| Code := 404; Message := "page not found"; Data := anyNil |})
               w)).
Proof.
  intros v Hs Hh Hopts.
  assert (Hinv : mux.Schemes [EmptyString] ∈ mux.matchers (mux.conf (tree v))
                 ∧ Forall (rejects r) (mux.routes (tree v))).
  { subst v. unfold run.
    assert (H0 : mux.Schemes [EmptyString]
                   ∈ mux.matchers (mux.conf (tree (NewProuter p opts)))
                 ∧ Forall (rejects r) (mux.routes (tree (NewProuter p opts)))).
    { destruct (New_conf p opts) as [Hc Hr].
      apply isEmpty_false in Hs. rewrite Hh, Hs in Hc, Hr. cbn in Hc, Hr.
      unfold NewProuter, Prouter_UseMiddleware. destruct (append _ _ _) as [h s].
      cbn. rewrite Hc, (Hr eq_refl). split; [apply list_elem_of_singleton; reflexivity|].
      constructor. }
    revert H0 Hopts. generalize (NewProuter p opts).
    induction cs as [|c cs IH]; intros x Hx Hopts; cbn [fold_left]; [assumption|].
    cbn [map concat] in Hopts. apply Forall_app in Hopts as [Hc Hcs].
    apply IH; [|assumption].
    apply blocked_exec; [assumption | apply requestScheme_blocked | assumption]. }
  destruct Hinv as [_ Hrej].
  assert (Hsearch : mux.search (tree v) r = mux.Miss)
    by (now apply firstVerdict_all_Miss).
  split; [assumption|]. intros Hclean.
  destruct (run_fallbacks cs (NewProuter p opts)) as [Hnf Hmna]. fold v in Hnf, Hmna.
  unfold NewProuter in Hnf, Hmna. cbn in Hnf, Hmna.
  unfold ServeHTTP, mux.decide, mux.Match.
  now rewrite Hclean, String.eqb_refl, Hnf, Hmna, Hsearch.
Qed.

End UnreachableRoutes.

Lemma onlyAdds_nil : Forall onlyAdds [].
Proof. constructor. Qed.

Lemma path_without_slash_is_unreachable_witness :
  mux.badStart "x" = true
  ∧ Forall onlyAdds []
  ∧ ∀ r w,
      ServeHTTP (G := Demo.lib) (T := Demo.templates)
        (HandleRoute Self "GET" "x" (Demo.reply 200 "x") [] Demo.mounted) r w
      = ServeHTTP (G := Demo.lib) (T := Demo.templates) Demo.mounted r w.
Proof.
  split; [reflexivity|]. split; [exact onlyAdds_nil|]. intros r w.
  exact (path_without_slash_is_unreachable (G := Demo.lib) (T := Demo.templates)
           Self "GET" "x" (Demo.reply 200 "x") [] Demo.mounted r w eq_refl onlyAdds_nil).
Defined.

Lemma scheme_without_host_serves_nothing_witness :
  let cs := [CHandleRoute Self "GET" "/x" (Demo.reply 200 "x") []] in
  optionScheme [WithScheme "https"] ≠ EmptyString
  ∧ optionHost [WithScheme "https"] = EmptyString
  ∧ Forall onlyAdds (concat (map cmdOptions cs))
  ∧ ServeHTTP (G := Demo.lib) (T := Demo.templates)
      (run (G := Demo.lib) cs (NewProuter (G := Demo.lib) (B := Demo.builtins) startup
                                 [WithScheme "https"]))
      (Demo.request "GET" "/x" "10.0.0.1:4000") Demo.world
    = Done (send (WJSON 404 {| Code := 404; Message := "page not found"; Data := anyNil |})
              Demo.world).
Proof.
  intros cs.
  assert (Hs : optionScheme [WithScheme "https"] ≠ EmptyString) by discriminate.
  assert (Ho : Forall onlyAdds (concat (map cmdOptions cs))) by exact onlyAdds_nil.
  split; [exact Hs|]. split; [reflexivity|]. split; [exact Ho|].
  exact (proj2 (scheme_without_host_serves_nothing (G := Demo.lib) (T := Demo.templates)
                  (B := Demo.builtins) startup [WithScheme "https"] cs
                  (Demo.request "GET" "/x" "10.0.0.1:4000") Demo.world Hs eq_refl Ho)
           eq_refl).
Defined.
